(** * Smart Campus Operations Analytics: the data pipeline, the model cache
      and the analytics services, embedded from the Python sources.

    Numbers.  A [float64] is NaN or a [number], an exact rational or an
    infinity; the integers of an [int64] column are integers, and its
    subtraction wraps around.  A float cell is an [option number], [None]
    being NaN.  Comparisons compare the values.  What numpy and pandas
    compute from floats with rounding (division, subtraction, median,
    mean, round) is not fixed: these operations are the fields of
    [Numpy], and the statements hold for all of them, at most under the
    IEEE facts of [NumpyLaws].  [ideal] computes them in exact arithmetic;
    the examples run on it.

    Tables.  A [DataFrame] is a finite map from column names to columns; a
    column carries its dtype ([int64], [float64] or [object]).  The
    functions of [utils/preprocessing.py] are given twice: as functions of
    the contents of a table, and in [Heap] as procedures on a store of
    mutable tables, statement by statement; [HeapFacts] relates the two.

    Errors.  A Python exception is an [exn]; fallible functions return a
    [result].

    State.  The two module-level model caches are the state of a [State]
    computation.

    Libraries.  What scikit-learn computes (the shuffle of the split,
    [fit], [predict], the two metrics) and the text parser of
    [pd.to_numeric] are parameters; the four per-domain generators of
    recommendations are parameters of the ranking. *)

From Stdlib Require Import ZArith QArith Qcanon Qround String List.
From Stdlib Require Import Sorting.Permutation Sorting.Sorted OrdersEx Lia Lqa.
From stdpp Require Import base option list gmap strings numbers.

Local Open Scope Z_scope.
Local Open Scope string_scope.

(* ================================================================== *)
(** ** Exceptions *)

Inductive exn :=
| KeyError (key : string)
| TypeError
| ValueError.

Inductive result (A : Type) :=
| Ok (a : A)
| Raise (e : exn).
Arguments Ok {A} a.
Arguments Raise {A} e.

Global Instance result_ret : MRet result := λ A a, Ok a.
Global Instance result_bind : MBind result := λ A B k r,
  match r with
  | Ok a => k a
  | Raise e => Raise e
  end.

Global Instance result_fmap : FMap result := λ A B f r,
  match r with
  | Ok a => Ok (f a)
  | Raise e => Raise e
  end.

Definition is_Ok {A} (r : result A) : Prop := ∃ a, r = Ok a.

Global Instance exn_eq_dec : EqDecision exn.
Proof. solve_decision. Defined.
Global Instance result_eq_dec `{EqDecision A} : EqDecision (result A).
Proof. solve_decision. Defined.

(* ================================================================== *)
(** ** Numbers *)

Definition Qc_ltb (x y : Qc) : bool := if Qclt_le_dec x y then true else false.
Definition Qc_leb (x y : Qc) : bool := if Qclt_le_dec y x then false else true.

(** [int(x)]: truncation towards zero. *)
Definition Qc_trunc (x : Qc) : Z := Z.quot (Qnum x) (Zpos (Qden x)).

(** Round half to even to an integer (numpy's [rint], Python's [round]). *)
Definition round_half_even (x : Qc) : Z :=
  let f := Qfloor x in
  let r := (x - Qc_of_Z f)%Qc in
  let half := Q2Qc (1 # 2) in
  if Qc_ltb r half then f
  else if Qc_ltb half r then f + 1
  else if Z.even f then f else f + 1.

(** [round(x, ndigits)] / [np.round(x, ndigits)]. *)
Definition round_ndigits (ndigits : nat) (x : Qc) : Qc :=
  let scale := Qc_of_Z (10 ^ Z.of_nat ndigits) in
  (Qc_of_Z (round_half_even (x * scale)%Qc) / scale)%Qc.

Definition Qc_sum (xs : list Qc) : Qc := foldr Qcplus 0%Qc xs.

(** Operations on the figures of a report, with NaN propagation. *)
Definition fdiv (a b : option Qc) : option Qc :=
  x ← a; y ← b; Some (x / y)%Qc.
Definition fsub (a b : option Qc) : option Qc :=
  x ← a; y ← b; Some (x - y)%Qc.
Definition fmul (a : option Qc) (k : Qc) : option Qc :=
  x ← a; Some (x * k)%Qc.

(** A [float64] that is not NaN.  The value of an [int64] is the finite
    number of that integer. *)
Inductive number :=
| NInf
| Fin (q : Qc)
| PInf.

Global Instance number_eq_dec : EqDecision number.
Proof. solve_decision. Defined.

Definition zero : number := Fin 0%Qc.
Definition of_int (z : Z) : number := Fin (Qc_of_Z z).

(** [a < b] and [a <= b] on numbers. *)
Definition num_ltb (a b : number) : bool :=
  match a, b with
  | NInf, NInf => false
  | NInf, _ => true
  | Fin _, NInf => false
  | Fin x, Fin y => Qc_ltb x y
  | Fin _, PInf => true
  | PInf, _ => false
  end.
Definition num_leb (a b : number) : bool := negb (num_ltb b a).

(** [np.maximum(lo, x)] as [clip] applies it: what is below [lo] is
    replaced by [lo]. *)
Definition num_max (lo x : number) : number := if num_ltb x lo then lo else x.

(** [a > 0]: false on NaN. *)
Definition fpos (a : option number) : bool :=
  match a with
  | Some x => num_ltb zero x
  | None => false
  end.
(** [a >= t]: false on NaN. *)
Definition fge (a : option number) (t : number) : bool :=
  match a with
  | Some x => num_leb t x
  | None => false
  end.

(** [x * k] for a float [x] and a finite factor [k]. *)
Definition scale_cell (a : option number) (k : Qc) : option number :=
  x ← a;
  match x with
  | Fin q => Some (Fin (q * k)%Qc)
  | PInf => if Qc_ltb 0%Qc k then Some PInf
            else if Qc_ltb k 0%Qc then Some NInf else None
  | NInf => if Qc_ltb 0%Qc k then Some NInf
            else if Qc_ltb k 0%Qc then Some PInf else None
  end.

(** [int64] arithmetic wraps around. *)
Definition wrap64 (z : Z) : Z := (z + 2 ^ 63) mod 2 ^ 64 - 2 ^ 63.

(** The float operations of numpy and pandas that round: each takes and
    returns floats and is otherwise left open. *)
Class Numpy := {
  (** [a / b] *)
  np_divide : option number → option number → option number;
  (** [a - b] on floats *)
  np_subtract : option number → option number → option number;
  (** [series.median()]: NaN cells are skipped *)
  nanmedian : list (option number) → option number;
  (** [series.mean()] and the mean of a group: NaN cells are skipped *)
  nanmean : list (option number) → option number;
  (** [np.round(x, n)], [round(x, n)] *)
  np_round : nat → option number → option number;
  (** the cast to [int64] of a finite float whose integer part is out
      of range: what the platform gives *)
  int_cast_overflow : Qc → Z
}.

Definition finite (x : number) : Prop := ∃ q, x = Fin q.
Definition infinite (x : number) : Prop := x = PInf ∨ x = NInf.

(** IEEE 754 facts about these operations: a quotient by a positive
    number or a difference is NaN only if an operand is NaN or both are
    infinite; a quotient of a non-negative by a positive number is not
    negative; a median is NaN when there is nothing to take it of, and
    is not when all there is is finite. *)
Class NumpyLaws (np : Numpy) : Prop := {
  divide_number a b :
    num_ltb zero b = true → ¬ (infinite a ∧ infinite b) →
    is_Some (np_divide (Some a) (Some b));
  divide_nonneg a b x :
    np_divide (Some a) (Some b) = Some x →
    num_leb zero a = true → num_ltb zero b = true → num_leb zero x = true;
  subtract_number a b :
    ¬ (infinite a ∧ infinite b) → is_Some (np_subtract (Some a) (Some b));
  nanmedian_missing xs :
    (∀ o, o ∈ xs → o = None) → nanmedian xs = None;
  nanmedian_number xs :
    (∀ x, Some x ∈ xs → finite x) → (∃ x, Some x ∈ xs) →
    is_Some (nanmedian xs)
}.

(* ================================================================== *)
(** ** A stable sort

    Python's [sorted] / [list.sort] and the sorts pandas applies to group
    keys and categories are stable sorts by a key order; the stable sorted
    rearrangement of a list is unique, so an insertion sort computes it. *)

Section StableSort.
Context {A : Type} (ltb : A → A → bool).

(** [x] comes from before every element of [l]: it is placed in front
    of the first element that is not strictly smaller than it. *)
Fixpoint insert_sorted (x : A) (l : list A) : list A :=
  match l with
  | [] => [x]
  | y :: l' => if ltb y x then y :: insert_sorted x l' else x :: y :: l'
  end.

Fixpoint stable_sort (l : list A) : list A :=
  match l with
  | [] => []
  | x :: l' => insert_sorted x (stable_sort l')
  end.
End StableSort.

(* ================================================================== *)
(** ** Tables *)

(** A cell of an [object] column. *)
Inductive value :=
| VNum (x : number)
| VStr (s : string)
| VNaN.

Inductive column :=
| IntCol (zs : list Z)                  (* dtype int64: no missing values *)
| FloatCol (xs : list (option number))  (* dtype float64: [None] is NaN *)
| ObjCol (vs : list value).             (* dtype object *)

Global Instance value_eq_dec : EqDecision value.
Proof. solve_decision. Defined.
Global Instance column_eq_dec : EqDecision column.
Proof. solve_decision. Defined.

Abbreviation DataFrame := (gmap string column).

(** [df[col]] *)
Definition getitem (df : DataFrame) (col : string) : result column :=
  match df !! col with
  | Some c => Ok c
  | None => Raise (KeyError col)
  end.

(** [len(series)] *)
Definition col_length (c : column) : nat :=
  match c with
  | IntCol zs => length zs
  | FloatCol xs => length xs
  | ObjCol vs => length vs
  end.

(** The cell of a float column as a value. *)
Definition float_value (o : option number) : value :=
  match o with
  | Some x => VNum x
  | None => VNaN
  end.

(** The cells of a column, whatever its dtype. *)
Definition cells (c : column) : list value :=
  match c with
  | IntCol zs => (λ z, VNum (of_int z)) <$> zs
  | FloatCol xs => float_value <$> xs
  | ObjCol vs => vs
  end.

(** The numeric reading of a column used by arithmetic and comparisons;
    a string cell makes the operation raise [TypeError]. *)
Definition value_float (v : value) : result (option number) :=
  match v with
  | VNum x => Ok (Some x)
  | VNaN => Ok None
  | VStr _ => Raise TypeError
  end.

Definition as_float (c : column) : result (list (option number)) :=
  match c with
  | IntCol zs => Ok ((λ z, Some (of_int z)) <$> zs)
  | FloatCol xs => Ok xs
  | ObjCol vs => mapM value_float vs
  end.

(* ================================================================== *)
(** ** utils/preprocessing.py: cleaning *)

(** [series.isnull().any()] on a float column. *)
Definition has_nan (xs : list (option number)) : bool :=
  existsb (λ o, match o with None => true | Some _ => false end) xs.

(** [series.fillna(fill)]; an int64 column has nothing to fill. *)
Definition fillna (fill : option number) (c : column) : column :=
  match c with
  | IntCol zs => IntCol zs
  | FloatCol xs =>
      FloatCol ((λ o, match o with Some x => Some x | None => fill end) <$> xs)
  | ObjCol vs =>
      ObjCol ((λ v, match v, fill with VNaN, Some x => VNum x | _, _ => v end) <$> vs)
  end.

(** The integers of [int64]. *)
Definition in_int64 (z : Z) : bool :=
  ((- 2 ^ 63 <=? z) && (z <? 2 ^ 63))%Z.

(** [series.astype(int)]: truncation towards zero; NaN and the
    infinities cannot be cast. *)
Definition float_int {np : Numpy} (o : option number) : result Z :=
  match o with
  | Some (Fin q) =>
      if in_int64 (Qc_trunc q) then Ok (Qc_trunc q)
      else Ok (int_cast_overflow q)
  | Some PInf | Some NInf | None => Raise ValueError
  end.

Definition astype_int {np : Numpy} (c : column) : result column :=
  match c with
  | IntCol zs => Ok (IntCol zs)
  | FloatCol xs => IntCol <$> mapM float_int xs
  | ObjCol vs => IntCol <$> mapM (λ v, value_float v ≫= float_int) vs
  end.

(** [series.clip(lower=lo)]; NaN stays NaN. *)
Definition clip_value (lo : Z) (v : value) : result value :=
  match v with
  | VNum x => Ok (VNum (num_max (of_int lo) x))
  | VNaN => Ok VNaN
  | VStr _ => Raise TypeError
  end.

Definition clip_lower (lo : Z) (c : column) : result column :=
  match c with
  | IntCol zs => Ok (IntCol (Z.max lo <$> zs))
  | FloatCol xs =>
      Ok (FloatCol ((λ o : option number, num_max (of_int lo) <$> o) <$> xs))
  | ObjCol vs => ObjCol <$> mapM (clip_value lo) vs
  end.

Section Cleaning.
Context {np : Numpy}.
(** The parser behind [pd.to_numeric] for string cells: [None] when the
    text is not a number. *)
Context (parse_number : string → option number).

Definition coerce_value (v : value) : option number :=
  match v with
  | VNum x => Some x
  | VStr s => parse_number s
  | VNaN => None
  end.

(** [pd.to_numeric(series, errors="coerce")] *)
Definition to_numeric (c : column) : column :=
  match c with
  | IntCol zs => IntCol zs
  | FloatCol xs => FloatCol xs
  | ObjCol vs => FloatCol (coerce_value <$> vs)
  end.

(** Step 1: [Security_Incidents] to numeric, nulls to 0, cast to int. *)
Definition coerce_security_incidents (df : DataFrame) : result DataFrame :=
  s ← getitem df "Security_Incidents";
  let df := <["Security_Incidents" := to_numeric s]> df in
  s ← getitem df "Security_Incidents";
  c ← astype_int (fillna (Some (of_int 0)) s);
  Ok (<["Security_Incidents" := c]> df).

(** Step 2, one pass of the loop body: a numeric column with a null is
    filled with its own median. *)
Definition fill_median (c : column) : column :=
  match c with
  | FloatCol xs => if has_nan xs then fillna (nanmedian xs) c else c
  | IntCol _ | ObjCol _ => c
  end.

(** Step 2: the loop over [numeric_cols]; each column is rewritten from
    its own cells only. *)
Definition fill_numeric_nulls (df : DataFrame) : DataFrame :=
  fill_median <$> df.

(** Step 3: negative delays are clipped to 0, when the column exists. *)
Definition clip_delays (df : DataFrame) : result DataFrame :=
  match df !! "Avg_Delay_Min" with
  | Some d =>
      c ← clip_lower 0 d;
      Ok (<["Avg_Delay_Min" := c]> df)
  | None => Ok df
  end.

(** [clean_dataframe], as a function of the table's contents. *)
Definition clean_dataframe (df : DataFrame) : result DataFrame :=
  df ← coerce_security_incidents df;
  clip_delays (fill_numeric_nulls df).
End Cleaning.

(* ================================================================== *)
(** ** config.py *)

Definition ZONE_CAPACITY : gmap string Z :=
  list_to_map [("Library", 200); ("Sports", 250); ("Hostel", 300);
               ("FoodCourt", 150); ("Academic", 250)].

(** [TEST_SIZE = 0.2] *)
Definition TEST_SIZE : Qc := Q2Qc (1 # 5).
Definition RANDOM_STATE : Z := 42.

(* ================================================================== *)
(** ** utils/preprocessing.py: feature engineering *)

(** The alphabetical (code point) order of Python strings. *)
Definition str_ltb (a b : string) : bool :=
  match String_as_OT.compare a b with
  | Lt => true
  | _ => false
  end.

(** The order in which pandas sorts the distinct values of a column:
    numbers by value, text alphabetically, numbers before text. *)
Definition value_ltb (a b : value) : bool :=
  match a, b with
  | VNum x, VNum y => num_ltb x y
  | VNum _, VStr _ => true
  | VStr s, VStr t => str_ltb s t
  | _, _ => false
  end.

(** [series.astype("category")]: the categories are the distinct non-null
    values, sorted. *)
Definition categories (ls : list value) : list value :=
  stable_sort value_ltb (remove_dups (filter (λ v, v ≠ VNaN) ls)).

Fixpoint index_of (s : value) (l : list value) : option nat :=
  match l with
  | [] => None
  | c :: l' => if decide (c = s) then Some O else S <$> index_of s l'
  end.

(** [.cat.codes]: the position of the cell's category; -1 for a null. *)
Definition cat_code (cats : list value) (v : value) : Z :=
  match v with
  | VNaN => -1
  | _ =>
      match index_of v cats with
      | Some i => Z.of_nat i
      | None => -1
      end
  end.

Definition cat_codes (ls : list value) : list Z :=
  cat_code (categories ls) <$> ls.

(** [series.map(table)]: a cell that is not a key of the dict gives NaN. *)
Definition map_dict (table : gmap string Z) (c : column) : column :=
  FloatCol ((λ v, match v with
                  | VStr s => of_int <$> table !! s
                  | VNum _ | VNaN => None
                  end) <$> cells c).

Section Features.
Context {np : Numpy}.

(** [np.where(den > 0, num / den, 0.0)], row by row. *)
Definition where_ratio (den num : list (option number)) : list (option number) :=
  zip_with (λ d n, if fpos d then np_divide n d else Some zero) den num.

(** [a - b] on two columns: two [int64] columns give an [int64] column,
    anything else is subtracted as floats. *)
Definition difference (a b : column) : result (list (option number)) :=
  match a, b with
  | IntCol xs, IntCol ys =>
      Ok (zip_with (λ x y, Some (of_int (wrap64 (x - y)))) xs ys)
  | _, _ =>
      xa ← as_float a;
      xb ← as_float b;
      Ok (zip_with np_subtract xa xb)
  end.

(** [add_engineered_features], as a function of the table's contents. *)
Definition add_engineered_features (df : DataFrame) : result DataFrame :=
  zone ← getitem df "Zone";
  cap ← astype_int (fillna (Some (of_int 200)) (map_dict ZONE_CAPACITY zone));
  let df := <["zone_capacity" := cap]> df in
  (* congestion_index *)
  den ← getitem df "zone_capacity" ≫= as_float;
  num ← getitem df "Footfall" ≫= as_float;
  let df := <["congestion_index" := FloatCol (where_ratio den num)]> df in
  (* waste_percent *)
  prepared ← getitem df "Prepared_Qty";
  den ← as_float prepared;
  sold ← getitem df "Orders";
  num ← difference prepared sold;
  let df := <["waste_percent" := FloatCol (where_ratio den num)]> df in
  (* transport_utilization *)
  den ← getitem df "Bus_Capacity" ≫= as_float;
  num ← getitem df "Passengers" ≫= as_float;
  let df := <["transport_utilization" := FloatCol (where_ratio den num)]> df in
  (* label encoding *)
  zone ← getitem df "Zone";
  let df := <["zone_encoded" := IntCol (cat_codes (cells zone))]> df in
  slot ← getitem df "Time_Slot";
  Ok (<["time_slot_encoded" := IntCol (cat_codes (cells slot))]> df).
End Features.

(* ================================================================== *)
(** ** Computations on process-wide state

    [State S A]: a computation that reads and writes a state [S] and
    returns an [A] or raises.  What was written before an exception stays
    written. *)

Definition State (S A : Type) : Type := S → result A * S.

Global Instance State_ret {S} : MRet (State S) := λ A a st, (Ok a, st).
Global Instance State_bind {S} : MBind (State S) := λ A B k m st,
  match m st with
  | (Ok a, st') => k a st'
  | (Raise e, st') => (Raise e, st')
  end.

Definition lift {S A} (r : result A) : State S A := λ st, (r, st).
Definition gets {S A} (f : S → A) : State S A := λ st, (Ok (f st), st).
Definition modify {S} (f : S → S) : State S unit := λ st, (Ok (), f st).

(* ================================================================== *)
(** ** The same two functions on shared, mutable tables

    A pandas DataFrame is a mutable object handled by reference:
    [df[col] = ...] rewrites the object that [df] points to, and
    [df.copy()] allocates a new object.  The store maps references to the
    current contents of the objects; an exception leaves the store as it
    was when it was raised. *)

Module Heap.

Abbreviation loc := nat.
Abbreviation store := (gmap nat (gmap string column)).

Abbreviation St := (State store).

(** [df.copy()] *)
Definition copy (df : loc) : St loc := λ h,
  match h !! df with
  | Some d => let l := fresh (dom h) in (Ok l, <[l := d]> h)
  | None => (Raise ValueError, h)
  end.

(** [df[col]] *)
Definition load (df : loc) (col : string) : St column := λ h,
  match h !! df with
  | Some d => (getitem d col, h)
  | None => (Raise ValueError, h)
  end.

(** [col in df.columns] *)
Definition has_column (df : loc) (col : string) : St bool := λ h,
  match h !! df with
  | Some d => (Ok (bool_decide (is_Some (d !! col))), h)
  | None => (Raise ValueError, h)
  end.

(** [df[col] = c]: the object is rewritten in place. *)
Definition store_col (df : loc) (col : string) (c : column) : St unit := λ h,
  match h !! df with
  | Some d => (Ok (), <[df := <[col := c]> d]> h)
  | None => (Raise ValueError, h)
  end.

(** [df.select_dtypes(include=[np.number]).columns] *)
Definition is_numeric (c : column) : bool :=
  match c with
  | IntCol _ | FloatCol _ => true
  | ObjCol _ => false
  end.

Definition select_numeric (df : loc) : St (list string) := λ h,
  match h !! df with
  | Some d => (Ok ((filter (λ kc, is_numeric kc.2) (map_to_list d)).*1), h)
  | None => (Raise ValueError, h)
  end.

(** [for x in xs: body(x)] *)
Fixpoint for_each {A} (xs : list A) (body : A → St unit) : St unit :=
  match xs with
  | [] => mret ()
  | x :: xs' => body x;; for_each xs' body
  end.

Section Cleaning.
Context {np : Numpy}.
Context (parse_number : string → option number).

(** The body of the loop over [numeric_cols]:
    [if df[col].isnull().any(): df[col] = df[col].fillna(df[col].median())] *)
Definition fill_if_null (df : loc) (col : string) : St unit :=
  c ← load df col;
  match c with
  | FloatCol xs =>
      if has_nan xs then store_col df col (fillna (nanmedian xs) c)
      else mret ()
  | IntCol _ | ObjCol _ => mret ()
  end.

Definition clean_dataframe (df : loc) : St loc :=
  df ← copy df;
  s ← load df "Security_Incidents";
  store_col df "Security_Incidents" (to_numeric parse_number s);;
  s ← load df "Security_Incidents";
  c ← lift (astype_int (fillna (Some (of_int 0)) s));
  store_col df "Security_Incidents" c;;
  numeric_cols ← select_numeric df;
  for_each numeric_cols (fill_if_null df);;
  present ← has_column df "Avg_Delay_Min";
  (if present : bool then
     d ← load df "Avg_Delay_Min";
     c ← lift (clip_lower 0 d);
     store_col df "Avg_Delay_Min" c
   else mret ());;
  mret df.
End Cleaning.

Section Features.
Context {np : Numpy}.

Definition load_float (df : loc) (col : string) : St (list (option number)) :=
  c ← load df col; lift (as_float c).

Definition add_engineered_features (df : loc) : St loc :=
  df ← copy df;
  zone ← load df "Zone";
  cap ← lift (astype_int (fillna (Some (of_int 200)) (map_dict ZONE_CAPACITY zone)));
  store_col df "zone_capacity" cap;;
  den ← load_float df "zone_capacity";
  num ← load_float df "Footfall";
  store_col df "congestion_index" (FloatCol (where_ratio den num));;
  prepared ← load df "Prepared_Qty";
  den ← lift (as_float prepared);
  sold ← load df "Orders";
  num ← lift (difference prepared sold);
  store_col df "waste_percent" (FloatCol (where_ratio den num));;
  den ← load_float df "Bus_Capacity";
  num ← load_float df "Passengers";
  store_col df "transport_utilization" (FloatCol (where_ratio den num));;
  zone ← load df "Zone";
  store_col df "zone_encoded" (IntCol (cat_codes (cells zone)));;
  slot ← load df "Time_Slot";
  store_col df "time_slot_encoded" (IntCol (cat_codes (cells slot)));;
  mret df.
End Features.

End Heap.

(* ================================================================== *)
(** ** services/congestion_service.py *)

(** The key of a row for [groupby(["Zone", "Time_Slot"])]; a row with a
    null in either key column belongs to no group. *)
Definition group_key (z t : value) : option (value * value) :=
  match z, t with
  | VNaN, _ | _, VNaN => None
  | _, _ => Some (z, t)
  end.

(** The keys are sorted by zone, then by time slot. *)
Definition key_ltb (a b : value * value) : bool :=
  value_ltb a.1 b.1 || (bool_decide (a.1 = b.1) && value_ltb a.2 b.2).

(** The group keys in the order [groupby] lists them: distinct, sorted. *)
Definition group_keys (ks : list (option (value * value))) : list (value * value) :=
  stable_sort key_ltb (remove_dups (omap id ks)).

(** The cells of the aggregated column that fall in group [k]. *)
Definition group_values (ks : list (option (value * value)))
    (xs : list (option number)) (k : value * value) : list (option number) :=
  (filter (λ kx, kx.1 = Some k) (zip ks xs)).*2.

Record heat_cell := {
  zone : value;
  time_slot : value;
  congestion_index : option number
}.

Global Instance heat_cell_eq_dec : EqDecision heat_cell.
Proof. solve_decision. Defined.

(** [series.idxmax()]: the first row holding the largest non-null value. *)
Fixpoint idxmax (rows : list heat_cell) : option heat_cell :=
  match rows with
  | [] => None
  | r :: rows' =>
      match congestion_index r, idxmax rows' with
      | None, best => best
      | Some _, None => Some r
      | Some x, Some b =>
          match congestion_index b with
          | Some y => if num_ltb x y then Some b else Some r
          | None => Some r
          end
      end
  end.

Record congestion_summary := {
  overall_avg_congestion : option number;
  most_congested_zone : value;
  most_congested_time_slot : value;
  bottleneck_count : nat;
  heatmap : list heat_cell
}.

(** The [float64] written [0.85]: the double nearest to 85/100. *)
Definition BOTTLENECK_THRESHOLD : number :=
  Fin (Q2Qc (7656119366529843 # 9007199254740992)).

Section Congestion.
Context {np : Numpy}.

(** [frame.round(3)] on a key column: a [float64] column is rounded, an
    [int64] or [object] column is left as it is. *)
Definition round_key (c : column) (v : value) : value :=
  match c, v with
  | FloatCol _, VNum x => float_value (np_round 3 (Some x))
  | _, _ => v
  end.

(** [df.groupby(["Zone","Time_Slot"], as_index=False)["congestion_index"]
       .mean().round(3)] as a list of records. *)
Definition get_congestion_heatmap (df : DataFrame) : result (list heat_cell) :=
  zone_col ← getitem df "Zone";
  slot_col ← getitem df "Time_Slot";
  xs ← getitem df "congestion_index" ≫= as_float;
  let ks := zip_with group_key (cells zone_col) (cells slot_col) in
  Ok ((λ k, {| zone := round_key zone_col k.1;
               time_slot := round_key slot_col k.2;
               congestion_index := np_round 3 (nanmean (group_values ks xs k)) |})
        <$> group_keys ks).

Definition get_bottlenecks (df : DataFrame) (threshold : number)
    : result (list heat_cell) :=
  heatmap ← get_congestion_heatmap df;
  Ok (filter (λ row, fge (congestion_index row) threshold = true) heatmap).

Definition get_congestion_summary (df : DataFrame) : result congestion_summary :=
  heatmap ← get_congestion_heatmap df;
  match heatmap with
  | [] => Raise (KeyError "congestion_index")
  | _ =>
    match idxmax heatmap with
    | None => Raise ValueError
    | Some worst_row =>
      Ok {| overall_avg_congestion :=
              np_round 3 (nanmean (congestion_index <$> heatmap));
            most_congested_zone := zone worst_row;
            most_congested_time_slot := time_slot worst_row;
            bottleneck_count :=
              length (filter (λ row, fge (congestion_index row)
                                         BOTTLENECK_THRESHOLD = true) heatmap);
            heatmap := heatmap |}
    end
  end.

(** *** What the summary is compared with: the groups and their means *)

(** The number of zone x time-slot groups whose mean congestion index
    passes [test]. *)
Definition count_groups (test : option number → bool) (df : DataFrame) : result nat :=
  zone_col ← getitem df "Zone";
  slot_col ← getitem df "Time_Slot";
  xs ← getitem df "congestion_index" ≫= as_float;
  let ks := zip_with group_key (cells zone_col) (cells slot_col) in
  Ok (length (filter (λ k, test (nanmean (group_values ks xs k)) = true)
                     (remove_dups (omap id ks)))).

(** The number of groups whose mean, rounded to 3 decimals, is at least
    [t]. *)
Definition groups_rounded_at_or_above (t : number) : DataFrame → result nat :=
  count_groups (λ m, fge (np_round 3 m) t).
End Congestion.

(* ================================================================== *)
(** ** models/train_models.py *)

(** A sub-table [df[cols]] with its columns in the order asked for. *)
Abbreviation Frame := (list (string * column)).
(** The float array scikit-learn makes of a table, column by column. *)
Abbreviation matrix := (list (list (option number))).

(** [df[cols]]: [KeyError] if a column is missing. *)
Definition select (df : DataFrame) (cols : list string) : result Frame :=
  mapM (λ c, col ← getitem df c; Ok (c, col)) cols.

(** [len(X)] *)
Definition n_rows (X : Frame) : nat :=
  match X with
  | [] => O
  | (_, c) :: _ => col_length c
  end.

Definition to_matrix (X : Frame) : result matrix :=
  mapM (λ nc, as_float nc.2) X.

(** The rows [idx] of a column, of a table. *)
Definition take_rows (idx : list nat) (c : column) : column :=
  match c with
  | IntCol zs => IntCol (omap (λ i, zs !! i) idx)
  | FloatCol xs => FloatCol (omap (λ i, xs !! i) idx)
  | ObjCol vs => ObjCol (omap (λ i, vs !! i) idx)
  end.

Definition take_frame_rows (idx : list nat) (X : Frame) : Frame :=
  (λ nc, (nc.1, take_rows idx nc.2)) <$> X.

(** The sizes [train_test_split] derives from a float [test_size]:
    [n_test = ceil(test_size * n)], [n_train = n - n_test]. *)
Definition n_test_of (n : nat) : nat :=
  Z.to_nat (Qceiling (TEST_SIZE * Qc_of_Z (Z.of_nat n))%Qc).
Definition n_train_of (n : nat) : nat := (n - n_test_of n)%nat.

Record split := {
  X_train_of : Frame;
  X_test_of : Frame;
  y_train_of : column;
  y_test_of : column
}.

Record bundle (Model : Type) := {
  model : Model;
  feature_names : list string;
  r2 : option Qc;
  mae : option Qc;
  X_test : Frame;
  y_test : column
}.
Arguments model {Model} _.
Arguments feature_names {Model} _.
Arguments r2 {Model} _.
Arguments mae {Model} _.
Arguments X_test {Model} _.
Arguments y_test {Model} _.

(** The two module-level globals. *)
Record caches (Model : Type) := {
  _food_model_cache : option (bundle Model);
  _satisfaction_model_cache : option (bundle Model)
}.
Arguments _food_model_cache {Model} _.
Arguments _satisfaction_model_cache {Model} _.

Section Models.
(** scikit-learn and numpy, as the program uses them. *)
Context {Model : Type}.
(** [RandomState(seed).permutation(n)] *)
Context (permutation : Z → nat → list nat).
(** [LinearRegression().fit(X, y)] *)
Context (fit_linear_regression : matrix → list (option number) → result Model).
(** [RandomForestRegressor(n_estimators, max_depth, random_state, n_jobs)
      .fit(X, y)] *)
Context (fit_random_forest :
           nat → nat → Z → matrix → list (option number) → result Model).
(** [model.predict(X)] *)
Context (predict : Model → matrix → result (list Qc)).
(** [r2_score(y_true, y_pred)], [mean_absolute_error(y_true, y_pred)] *)
Context (r2_score mean_absolute_error :
           list (option number) → list Qc → result (option Qc)).

(** [train_test_split(X, y, test_size=TEST_SIZE, random_state=RANDOM_STATE)]:
    it refuses to return an empty training set; the first [n_test] indices
    of the shuffle are the test rows, the next [n_train] the training
    rows. *)
Definition _split (X : Frame) (y : column) : result split :=
  let n := n_rows X in
  if decide (n_train_of n = O) then Raise ValueError
  else
    let perm := permutation RANDOM_STATE n in
    let test := take (n_test_of n) perm in
    let train := take (n_train_of n) (drop (n_test_of n) perm) in
    Ok {| X_train_of := take_frame_rows train X;
          X_test_of := take_frame_rows test X;
          y_train_of := take_rows train y;
          y_test_of := take_rows test y |}.

(** The body both getters share once the cache is found empty; [fit] is
    the estimator's constructor and [fit] call. *)
Definition train (fit : matrix → list (option number) → result Model)
    (feature_cols : list string) (target : string)
    (df : DataFrame) : result (bundle Model) :=
  X ← select df feature_cols;
  y ← getitem df target;
  s ← _split X y;
  Xtr ← to_matrix (X_train_of s);
  ytr ← as_float (y_train_of s);
  model ← fit Xtr ytr;
  Xte ← to_matrix (X_test_of s);
  y_pred ← predict model Xte;
  yte ← as_float (y_test_of s);
  r2 ← r2_score yte y_pred;
  mae ← mean_absolute_error yte y_pred;
  Ok {| model := model;
        feature_names := feature_cols;
        r2 := round_ndigits 4 <$> r2;
        mae := round_ndigits 4 <$> mae;
        X_test := X_test_of s;
        y_test := y_test_of s |}.

Definition food_features : list string :=
  ["Footfall"; "zone_encoded"; "time_slot_encoded"].
Definition satisfaction_features : list string :=
  ["congestion_index"; "Avg_Delay_Min"; "waste_percent"; "Response_Time_hr"].

Definition get_food_demand_model (df : DataFrame)
    : State (caches Model) (bundle Model) :=
  cache ← gets _food_model_cache;
  match cache with
  | Some b => mret b
  | None =>
      b ← lift (train fit_linear_regression food_features "Orders" df);
      modify (λ st, {| _food_model_cache := Some b;
                       _satisfaction_model_cache := _satisfaction_model_cache st |});;
      mret b
  end.

Definition get_satisfaction_model (df : DataFrame)
    : State (caches Model) (bundle Model) :=
  cache ← gets _satisfaction_model_cache;
  match cache with
  | Some b => mret b
  | None =>
      b ← lift (train (fit_random_forest 150 12 RANDOM_STATE)
                      satisfaction_features "Satisfaction" df);
      modify (λ st, {| _food_model_cache := _food_model_cache st;
                       _satisfaction_model_cache := Some b |});;
      mret b
  end.

(* ================================================================ *)
(** ** services/simulation_service.py *)

Record simulation := {
  congestion_reduction_pct : Qc;
  delay_reduction_pct : Qc;
  baseline_satisfaction : option Qc;
  projected_satisfaction : option Qc;
  improvement_pct : option Qc
}.

(** [array.mean()]: NaN for an empty array. *)
Definition array_mean (ys : list Qc) : option Qc :=
  match ys with
  | [] => None
  | _ => Some (Qc_sum ys / Qc_of_Z (Z.of_nat (length ys)))%Qc
  end.

(** [X[col] *= k], when [col] is one of the columns. *)
Definition scale_column (col : string) (k : Qc) (X : Frame) : result Frame :=
  mapM (λ nc : string * column,
          if decide (nc.1 = col)
          then xs ← as_float nc.2;
               Ok (nc.1, FloatCol ((λ x, scale_cell x k) <$> xs))
          else Ok nc) X.

Definition hundred : Qc := Qc_of_Z 100.

(** [round((p - b) / b * 100, 2) if b != 0 else 0.0]; NaN is not 0. *)
Definition improvement (b p : option Qc) : option Qc :=
  if decide (b = Some 0%Qc) then Some 0%Qc
  else round_ndigits 2 <$> fmul (fdiv (fsub p b) b) hundred.

Definition run_simulation (df : DataFrame)
    (congestion_reduction_pct delay_reduction_pct : Qc)
    : State (caches Model) simulation :=
  result ← get_satisfaction_model df;
  let model := model result in
  let feature_names := feature_names result in
  X_full ← lift (select df feature_names);
  base ← lift (to_matrix X_full ≫= predict model);
  let baseline_pred := round_ndigits 3 <$> array_mean base in
  X_sim ← lift (scale_column "congestion_index"
                  (1 - congestion_reduction_pct / hundred)%Qc X_full);
  X_sim ← lift (scale_column "Avg_Delay_Min"
                  (1 - delay_reduction_pct / hundred)%Qc X_sim);
  proj ← lift (to_matrix X_sim ≫= predict model);
  let projected_pred := round_ndigits 3 <$> array_mean proj in
  mret {| congestion_reduction_pct := congestion_reduction_pct;
          delay_reduction_pct := delay_reduction_pct;
          baseline_satisfaction := baseline_pred;
          projected_satisfaction := projected_pred;
          improvement_pct := improvement baseline_pred projected_pred |}.
End Models.

(* ================================================================== *)
(** ** services/interventions_service.py *)

(** The fields of a recommendation that ranking and the summary read; the
    texts and the evidence payload ride along unchanged. *)
Record intervention := {
  intervention_id : string;
  category : string;
  priority : string;
  title : string;
  projected_impact : Qc
}.

Global Instance intervention_eq_dec : EqDecision intervention.
Proof. solve_decision. Defined.

Definition _priority_label (value high critical : Qc) : string :=
  if Qc_leb critical value then "critical"
  else if Qc_leb high value then "high"
  else "medium".

(** [priority_order.get(p, 3)] *)
Definition priority_order (p : string) : nat :=
  if decide (p = "critical") then 0
  else if decide (p = "high") then 1
  else if decide (p = "medium") then 2
  else 3.

(** The sort key [(priority_order.get(x["priority"], 3),
    -x.get("projected_impact", 0))]. *)
Definition sort_key (x : intervention) : nat * Qc :=
  (priority_order (priority x), (- projected_impact x)%Qc).

(** Python compares tuples lexicographically. *)
Definition sort_key_ltb (a b : nat * Qc) : bool :=
  (a.1 <? b.1)%nat || ((a.1 =? b.1)%nat && Qc_ltb a.2 b.2).

Definition intervention_ltb (x y : intervention) : bool :=
  sort_key_ltb (sort_key x) (sort_key y).

Record intervention_summary := {
  total_interventions : nat;
  critical : nat;
  high : nat;
  medium : nat;
  total_projected_impact : Qc
}.

Definition count_priority (p : string) (items : list intervention) : nat :=
  length (filter (λ x, priority x = p) items).

Definition _compute_summary (items : list intervention) : intervention_summary :=
  {| total_interventions := length items;
     critical := count_priority "critical" items;
     high := count_priority "high" items;
     medium := count_priority "medium" items;
     total_projected_impact :=
       round_ndigits 1 (Qc_sum (projected_impact <$> items)) |}.

Record interventions_report := {
  summary : intervention_summary;
  interventions : list intervention
}.

Section Interventions.
Context {Model : Type}.
(** The four per-domain generators.  Each attaches to its records a
    priority label and a projected impact of the form
    [round(min(cap, x), 1)]; the satisfaction generator reads the cached
    satisfaction model. *)
Context (_congestion_interventions _food_interventions
         _transport_interventions : DataFrame → result (list intervention)).
Context (_satisfaction_interventions :
           DataFrame → State (caches Model) (list intervention)).

(** The recommendations in the order they are generated. *)
Definition pooled_interventions (df : DataFrame)
    : State (caches Model) (list intervention) :=
  a ← lift (_congestion_interventions df);
  b ← lift (_food_interventions df);
  c ← lift (_transport_interventions df);
  d ← _satisfaction_interventions df;
  mret (a ++ b ++ c ++ d)%list.

Definition get_strategic_interventions (df : DataFrame)
    : State (caches Model) interventions_report :=
  interventions ← pooled_interventions df;
  let interventions := stable_sort intervention_ltb interventions in
  mret {| summary := _compute_summary interventions;
          interventions := interventions |}.
End Interventions.

(* ================================================================== *)
(** * Vocabulary of the statements *)

(** A cell that holds a number, and that number is at least 0. *)
Definition nonneg_cell (v : value) : Prop :=
  ∃ x, v = VNum x ∧ num_leb zero x = true.

(** A column the cleaner leaves without a missing cell: it has none, or
    it is a float column whose median is not NaN. *)
Definition imputable {np : Numpy} (c : column) : Prop :=
  match c with
  | IntCol _ => True
  | FloatCol xs => has_nan xs = false ∨ is_Some (nanmedian xs)
  | ObjCol vs => VNaN ∉ vs
  end.

(** The integers step 1 of the cleaner makes of [Security_Incidents]:
    what does not read as a number counts as 0, and an infinity cannot
    be cast. *)
Definition security_int {np : Numpy} (o : option number) : result Z :=
  float_int (Some (default (of_int 0) o)).

Definition security_ints {np : Numpy} (parse_number : string → option number)
    (c : column) : result (list Z) :=
  match c with
  | IntCol zs => Ok zs
  | FloatCol xs => mapM security_int xs
  | ObjCol vs => mapM (λ v, security_int (coerce_value parse_number v)) vs
  end.

(** The cell of row [i] of column [col], read as a float. *)
Definition float_at (df : DataFrame) (col : string) (i : nat)
    (a : option number) : Prop :=
  ∃ c xs, df !! col = Some c ∧ as_float c = Ok xs ∧ xs !! i = Some a.

(** The cell of row [i] of an int64 column [col]. *)
Definition int_at (df : DataFrame) (col : string) (i : nat) (z : Z) : Prop :=
  ∃ zs, df !! col = Some (IntCol zs) ∧ zs !! i = Some z.

(** The cell of row [i] of [Prepared_Qty - Orders]. *)
Definition difference_at {np : Numpy} (df : DataFrame) (i : nat)
    (a : option number) : Prop :=
  ∃ p s ds, df !! "Prepared_Qty" = Some p ∧ df !! "Orders" = Some s ∧
            difference p s = Ok ds ∧ ds !! i = Some a.

(** [Prepared_Qty] and [Orders] are both [int64] columns. *)
Definition both_int64 (df : DataFrame) : Prop :=
  ∃ ps ss, df !! "Prepared_Qty" = Some (IntCol ps) ∧
           df !! "Orders" = Some (IntCol ss).

(** Columns of dtype int64 or float64. *)
Definition is_numeric_dtype (c : column) : Prop :=
  match c with
  | IntCol _ | FloatCol _ => True
  | ObjCol _ => False
  end.

(** A column without a missing cell. *)
Definition no_missing (c : column) : Prop :=
  match c with
  | IntCol _ => True
  | FloatCol xs => has_nan xs = false
  | ObjCol vs => VNaN ∉ vs
  end.

(** A delay column the second cleaning changes: the first pass finds a
    missing cell and a NaN median and fills nothing, and the median of
    the clipped column is a number. *)
Definition refilled {np : Numpy} (c : column) : Prop :=
  match c with
  | FloatCol xs =>
      has_nan xs = true ∧ nanmedian xs = None ∧
      is_Some (nanmedian ((λ o : option number, num_max (of_int 0) <$> o) <$> xs))
  | IntCol _ | ObjCol _ => False
  end.

Definition delay_refilled {np : Numpy} (df : DataFrame) : Prop :=
  ∃ d0, df !! "Avg_Delay_Min" = Some d0 ∧ refilled d0.

(** A table whose delays are finite or missing. *)
Definition finite_delays (df : DataFrame) : Prop :=
  ∀ xs x, df !! "Avg_Delay_Min" = Some (FloatCol xs) → Some x ∈ xs → finite x.

(** The capacity the feature engineer looks up for a zone cell: the
    table's entry, 200 for anything that is not a key of the table. *)
Definition zone_capacity_of (capacity : gmap string Z) (v : value) : Z :=
  match v with
  | VStr s => default 200 (capacity !! s)
  | VNum _ | VNaN => 200
  end.

(** The rank of a label: how many of the distinct labels of the column
    come strictly before it. *)
Definition label_rank (s : value) (ls : list value) : nat :=
  length (filter (λ c, value_ltb c s = true)
            (remove_dups (filter (λ v, v ≠ VNaN) ls))).

(** [codes] is the label encoding of the column [ls]: -1 at a missing
    label; at a present one its rank, which is not negative, is the same
    for equal labels only, and for text follows the alphabet. *)
Definition encodes (ls : list value) (codes : list Z) : Prop :=
  length codes = length ls ∧
  (∀ i, ls !! i = Some VNaN ↔ codes !! i = Some (-1)) ∧
  (∀ i s, ls !! i = Some s → s ≠ VNaN →
          codes !! i = Some (Z.of_nat (label_rank s ls))) ∧
  (∀ i j s t, ls !! i = Some s → ls !! j = Some t → s ≠ VNaN → t ≠ VNaN →
              ((label_rank s ls < label_rank t ls)%nat ↔ value_ltb s t = true) ∧
              (label_rank s ls = label_rank t ls ↔ s = t)) ∧
  (∀ i j a b, ls !! i = Some (VStr a) → ls !! j = Some (VStr b) →
              (label_rank (VStr a) ls < label_rank (VStr b) ls)%nat
              ↔ str_ltb a b = true).

(** The congestion indices of the rows whose zone is [z] and whose time
    slot is [t], in row order. *)
Definition group_cells (zs ts : list value) (xs : list (option number))
    (z t : value) : list (option number) :=
  omap (λ i, xs !! i)
       (filter (λ i, zs !! i = Some z ∧ ts !! i = Some t) (seq 0 (length xs))).

(** [(z, t)] is a zone x time-slot group of the table, and the mean
    congestion index of its rows, rounded to 3 decimals, is at least
    0.85. *)
Definition bottleneck_group {np : Numpy} (df : DataFrame) (z t : value) : Prop :=
  ∃ zone_col slot_col xs,
    df !! "Zone" = Some zone_col ∧ df !! "Time_Slot" = Some slot_col ∧
    getitem df "congestion_index" ≫= as_float = Ok xs ∧
    z ≠ VNaN ∧ t ≠ VNaN ∧
    (∃ i, cells zone_col !! i = Some z ∧ cells slot_col !! i = Some t) ∧
    fge (np_round 3 (nanmean (group_cells (cells zone_col) (cells slot_col)
                                xs z t)))
        BOTTLENECK_THRESHOLD = true.

(** A computation that writes to no object other than [l]. *)
Definition writes_only {A} (l : Heap.loc) (m : Heap.St A) : Prop :=
  ∀ h l', l' ≠ l → (m h).2 !! l' = h !! l'.

(* ================================================================== *)
(** * Exact arithmetic

    The operations of [Numpy] computed without rounding, with the IEEE
    rules for NaN and the infinities. *)

Definition ideal_add (a b : option number) : option number :=
  x ← a; y ← b;
  match x, y with
  | Fin p, Fin q => Some (Fin (p + q)%Qc)
  | PInf, NInf | NInf, PInf => None
  | PInf, _ | _, PInf => Some PInf
  | NInf, _ | _, NInf => Some NInf
  end.

Definition ideal_opp (a : option number) : option number :=
  x ← a;
  match x with
  | Fin p => Some (Fin (- p)%Qc)
  | PInf => Some NInf
  | NInf => Some PInf
  end.

Definition ideal_subtract (a b : option number) : option number :=
  ideal_add a (ideal_opp b).

Definition ideal_divide (a b : option number) : option number :=
  x ← a; y ← b;
  match x, y with
  | Fin p, Fin q =>
      if decide (q = 0%Qc)
      then if decide (p = 0%Qc) then None
           else if Qc_ltb 0%Qc p then Some PInf else Some NInf
      else Some (Fin (p / q)%Qc)
  | Fin _, (PInf | NInf) => Some zero
  | PInf, Fin q => if Qc_ltb q 0%Qc then Some NInf else Some PInf
  | NInf, Fin q => if Qc_ltb q 0%Qc then Some PInf else Some NInf
  | (PInf | NInf), (PInf | NInf) => None
  end.

Definition ideal_median (xs : list (option number)) : option number :=
  let s := stable_sort num_ltb (omap id xs) in
  let n := length s in
  match n with
  | O => None
  | _ =>
    if Nat.odd n then s !! (n / 2)%nat
    else ideal_divide (ideal_add (s !! (n / 2 - 1)%nat) (s !! (n / 2)%nat))
           (Some (of_int 2))
  end.

Definition ideal_mean (xs : list (option number)) : option number :=
  match omap id xs with
  | [] => None
  | ys => ideal_divide (foldr ideal_add (Some zero) (Some <$> ys))
            (Some (of_int (Z.of_nat (length ys))))
  end.

Definition ideal_round (n : nat) (a : option number) : option number :=
  x ← a;
  match x with
  | Fin q => Some (Fin (round_ndigits n q))
  | PInf | NInf => Some x
  end.

Definition ideal : Numpy :=
  {| np_divide := ideal_divide;
     np_subtract := ideal_subtract;
     nanmedian := ideal_median;
     nanmean := ideal_mean;
     np_round := ideal_round;
     int_cast_overflow := λ _, - 2 ^ 63 |}.

(* ================================================================== *)
(** * A small campus, to run the functions on *)


(** The value of a computation that is known to return. *)
Definition value_of {A} (otherwise : A) (r : result A) : A :=
  match r with
  | Ok a => a
  | Raise _ => otherwise
  end.

(** A finite float. *)
Definition real (q : Q) : option number := Some (Fin (Q2Qc q)).

(** Text in [Security_Incidents] does not read as a number. *)
Definition no_number : string → option number := λ _, None.

(** A table whose delay column is empty in every row. *)
Definition delays_all_missing : DataFrame :=
  list_to_map [("Security_Incidents", IntCol [0; 1]);
               ("Avg_Delay_Min", FloatCol [None; None])].

(** A table with both infinities and a blank among its delays. *)
Definition delays_infinite : DataFrame :=
  list_to_map [("Security_Incidents", IntCol [0; 1; 2]);
               ("Avg_Delay_Min", FloatCol [Some PInf; Some NInf; None])].

Definition delays_cleaned : DataFrame :=
  value_of ∅ (clean_dataframe (np := ideal) no_number delays_infinite).

Definition delays_cleaned_again : DataFrame :=
  value_of ∅ (clean_dataframe (np := ideal) no_number delays_cleaned).

(** A table whose [Footfall] column is empty. *)
Definition footfall_all_missing : DataFrame :=
  list_to_map [("Security_Incidents", IntCol [0]);
               ("Zone", ObjCol [VStr "Library"]);
               ("Time_Slot", ObjCol [VStr "Morning"]);
               ("Footfall", FloatCol [None]);
               ("Prepared_Qty", IntCol [50]);
               ("Orders", IntCol [40]);
               ("Bus_Capacity", IntCol [40]);
               ("Passengers", IntCol [30])].

(** A table with an infinite footfall. *)
Definition footfall_infinite : DataFrame :=
  <["Footfall" := FloatCol [Some PInf]]> footfall_all_missing.

(** A table whose [Prepared_Qty - Orders] does not fit [int64]. *)
Definition waste_overflow : DataFrame :=
  <["Orders" := IntCol [-1]]>
    (<["Prepared_Qty" := IntCol [9223372036854775807]]>
       (<["Footfall" := FloatCol [real 190]]> footfall_all_missing)).

(** The three tables, cleaned and with their features. *)
Definition footfall_missing_cleaned : DataFrame :=
  value_of ∅ (clean_dataframe (np := ideal) no_number footfall_all_missing).
Definition footfall_missing_processed : DataFrame :=
  value_of ∅ (add_engineered_features (np := ideal) footfall_missing_cleaned).
Definition footfall_infinite_cleaned : DataFrame :=
  value_of ∅ (clean_dataframe (np := ideal) no_number footfall_infinite).
Definition footfall_infinite_processed : DataFrame :=
  value_of ∅ (add_engineered_features (np := ideal) footfall_infinite_cleaned).
Definition waste_overflow_cleaned : DataFrame :=
  value_of ∅ (clean_dataframe (np := ideal) no_number waste_overflow).
Definition waste_overflow_processed : DataFrame :=
  value_of ∅ (add_engineered_features (np := ideal) waste_overflow_cleaned).

(** A processed table with five groups, two of them at or above 0.85. *)
Definition five_groups : DataFrame :=
  list_to_map [("Zone", ObjCol [VStr "Library"; VStr "Library"; VStr "Sports";
                                VStr "Hostel"; VStr "FoodCourt"; VStr "Academic"]);
               ("Time_Slot", ObjCol [VStr "Morning"; VStr "Morning"; VStr "Evening";
                                     VStr "Morning"; VStr "Afternoon"; VStr "Morning"]);
               ("congestion_index",
                FloatCol [real (95 # 100); real (85 # 100);
                          real (95 # 100); real (30 # 100);
                          real (80 # 100); real (10 # 100)])].

(** Three observations with what real sheets have: a repeated header and
    a blank in [Security_Incidents], blanks in the categories and in the
    measurements, a negative delay, zero denominators. *)
Definition campus_raw : DataFrame :=
  list_to_map [
    ("Security_Incidents",
     ObjCol [VNum (Fin (Q2Qc 1)); VStr "Security_Incidents"; VNaN]);
    ("Zone", ObjCol [VStr "Library"; VStr "Sports"; VNaN]);
    ("Time_Slot", ObjCol [VStr "Morning"; VNaN; VStr "Evening"]);
    ("Footfall", FloatCol [real 190; None; real 100]);
    ("Prepared_Qty", IntCol [50; 0; 40]);
    ("Orders", IntCol [40; 0; 50]);
    ("Bus_Capacity", IntCol [40; 0; 50]);
    ("Passengers", FloatCol [real 30; real 10; None]);
    ("Avg_Delay_Min", FloatCol [real (-4); None; real (3 # 2)]);
    ("Response_Time_hr", FloatCol [real 2; real 5; real 1]);
    ("Satisfaction", FloatCol [real 4; real 3; real (7 # 2)])].

Definition campus_cleaned : DataFrame :=
  value_of ∅ (clean_dataframe (np := ideal) no_number campus_raw).

Definition campus_processed : DataFrame :=
  value_of ∅ (add_engineered_features (np := ideal) campus_cleaned).

(** A table of a single row: too short to split. *)
Definition one_row : DataFrame :=
  (λ c, take_rows [0%nat] c) <$> campus_processed.

Definition no_summary : congestion_summary :=
  {| overall_avg_congestion := None; most_congested_zone := VNaN;
     most_congested_time_slot := VNaN; bottleneck_count := 0; heatmap := [] |}.

Definition five_groups_summary : congestion_summary :=
  value_of no_summary (get_congestion_summary (np := ideal) five_groups).

(** The finite part of a float cell; 0 when there is none. *)
Definition finite_part (o : option number) : Qc :=
  match o with
  | Some (Fin q) => q
  | _ => 0%Qc
  end.

(** Stand-ins for scikit-learn: a model is the mean of its training
    targets, and it predicts that mean, less the first feature, for every
    row. *)
Definition toy_permutation (seed : Z) (n : nat) : list nat := seq 0 n.

Definition toy_fit (X : matrix) (y : list (option number)) : result Qc :=
  match ideal_mean y with
  | Some (Fin m) => Ok m
  | _ => Raise ValueError
  end.

Definition toy_forest (n_estimators max_depth : nat) (seed : Z) :
    matrix → list (option number) → result Qc := toy_fit.

Definition toy_predict (m : Qc) (X : matrix) : result (list Qc) :=
  match X with
  | (x :: col) :: _ => Ok ((λ o, m - finite_part o)%Qc <$> (x :: col))
  | _ => Raise ValueError
  end.

Definition toy_score (y_true : list (option number)) (y_pred : list Qc)
    : result (option Qc) :=
  Ok (array_mean (zip_with (λ a b, (finite_part a - b)%Qc) y_true y_pred)).

Definition empty_caches : caches Qc :=
  {| _food_model_cache := None; _satisfaction_model_cache := None |}.

Definition no_bundle : bundle Qc :=
  {| model := 0%Qc; feature_names := []; r2 := None; mae := None;
     X_test := []; y_test := IntCol [] |}.

Definition food_first_call : result (bundle Qc) * caches Qc :=
  get_food_demand_model toy_permutation toy_fit toy_predict toy_score toy_score
    campus_processed empty_caches.

Definition satisfaction_first_call : result (bundle Qc) * caches Qc :=
  get_satisfaction_model toy_permutation toy_forest toy_predict toy_score
    toy_score campus_processed empty_caches.

Definition no_simulation : simulation :=
  {| congestion_reduction_pct := 0%Qc; delay_reduction_pct := 0%Qc;
     baseline_satisfaction := None; projected_satisfaction := None;
     improvement_pct := None |}.

Definition simulation_run : result simulation * caches Qc :=
  run_simulation toy_permutation toy_forest toy_predict toy_score toy_score
    campus_processed 0%Qc 0%Qc empty_caches.

(** Generators that return fixed records. *)
Definition rec_ (i c p : string) (impact : Qc) : intervention :=
  {| intervention_id := i; category := c; priority := p; title := i;
     projected_impact := impact |}.

Definition toy_congestion (df : DataFrame) : result (list intervention) :=
  Ok [rec_ "cong-1" "congestion" "high" (Q2Qc 25);
      rec_ "cong-2" "congestion" "medium" (Q2Qc 6)].
Definition toy_food (df : DataFrame) : result (list intervention) :=
  Ok [rec_ "food-1" "food" "medium" (Q2Qc 6);
      rec_ "food-2" "food" "high" (Q2Qc 30)].
Definition toy_transport (df : DataFrame) : result (list intervention) :=
  Ok [rec_ "trans-1" "transport" "medium" (Q2Qc 6);
      rec_ "trans-2" "transport" "critical" (Q2Qc 1)].
Definition toy_satisfaction (df : DataFrame)
    : State (caches Qc) (list intervention) :=
  mret [rec_ "sat-1" "satisfaction" "critical" (Q2Qc 12);
        rec_ "sat-2" "satisfaction" "medium" (Q2Qc 7)].

Definition no_report : interventions_report :=
  {| summary := _compute_summary []; interventions := [] |}.

Definition strategic_run : result interventions_report * caches Qc :=
  get_strategic_interventions toy_congestion toy_food toy_transport
    toy_satisfaction campus_processed empty_caches.

(** The float in row [i] of column [col]; NaN when there is none. *)
Definition cell_float (df : DataFrame) (col : string) (i : nat)
    : option number :=
  default None (value_of [] (getitem df col ≫= as_float) !! i).

(* ================================================================== *)
(** * Properties *)

(** ** The exception monad *)

Lemma rbind_Ok {A B} (r : result A) (k : A → result B) (b : B) :
  r ≫= k = Ok b ↔ ∃ a, r = Ok a ∧ k a = Ok b.
Proof.
  destruct r as [a|e]; simpl; split.
  - intros H. by exists a.
  - by intros (a' & [= ->] & H).
  - intros H. discriminate H.
  - intros (a' & H & _). discriminate H.
Qed.

Lemma rfmap_Ok {A B} (f : A → B) (r : result A) (b : B) :
  f <$> r = Ok b ↔ ∃ a, r = Ok a ∧ b = f a.
Proof.
  destruct r as [a|e]; simpl; split.
  - intros [= <-]. by exists a.
  - by intros (a' & [= ->] & ->).
  - intros H. discriminate H.
  - intros (a' & H & _). discriminate H.
Qed.

Lemma getitem_Ok (df : DataFrame) col c :
  getitem df col = Ok c ↔ df !! col = Some c.
Proof.
  unfold getitem. destruct (df !! col); split; intros H; by simplify_eq.
Qed.

Lemma mapM_Ok_length {A B} (f : A → result B) (l : list A) (k : list B) :
  mapM f l = Ok k → length k = length l.
Proof.
  revert k. induction l as [|x l IH]; intros k; simpl.
  - by intros [= <-].
  - intros H. apply rbind_Ok in H as (y & _ & H).
    apply rbind_Ok in H as (k' & Hk' & [= <-]). simpl. f_equal. by apply IH.
Qed.

Lemma mapM_Ok_lookup {A B} (f : A → result B) (l : list A) (k : list B) i x :
  mapM f l = Ok k → l !! i = Some x → ∃ y, f x = Ok y ∧ k !! i = Some y.
Proof.
  revert k i. induction l as [|a l IH]; intros k i; simpl.
  - intros _ H. discriminate H.
  - intros H Hi. apply rbind_Ok in H as (y & Hy & H).
    apply rbind_Ok in H as (k' & Hk' & [= <-]).
    destruct i as [|i]; simpl in *.
    + simplify_eq. by exists y.
    + by apply IH.
Qed.

Lemma mapM_Ok_id {A} (f : A → result A) (l : list A) :
  Forall (λ x, f x = Ok x) l → mapM f l = Ok l.
Proof.
  induction 1 as [|x l Hx _ IH]; simpl; [done|].
  rewrite Hx. simpl. rewrite IH. done.
Qed.

Lemma mapM_is_Ok {A B} (f : A → result B) (l : list A) :
  Forall (λ x, is_Ok (f x)) l → is_Ok (mapM f l).
Proof.
  induction 1 as [|x l [y Hy] _ [k Hk]]; simpl.
  - by exists [].
  - rewrite Hy. simpl. rewrite Hk. simpl. by eexists.
Qed.

Lemma mapM_Ok_Forall2 {A B} (f : A → result B) (l : list A) (k : list B) :
  mapM f l = Ok k → Forall2 (λ x y, f x = Ok y) l k.
Proof.
  revert k. induction l as [|x l IH]; intros k; simpl.
  - intros [= <-]. constructor.
  - intros H. apply rbind_Ok in H as (y & Hy & H).
    apply rbind_Ok in H as (k' & Hk' & [= <-]). constructor; auto.
Qed.

Lemma mapM_fmap {A B C} (f : B → result C) (g : A → B) (l : list A) :
  mapM f (g <$> l) = mapM (λ x, f (g x)) l.
Proof.
  induction l as [|x l IH]; [done|].
  rewrite fmap_cons. simpl. by rewrite IH.
Qed.

Lemma mapM_ext {A B} (f g : A → result B) (l : list A) :
  (∀ x, f x = g x) → mapM f l = mapM g l.
Proof. intros H. induction l as [|x l IH]; simpl; [done|]. by rewrite H, IH. Qed.

(** ** Numbers *)

Lemma Qc_ltb_lt x y : Qc_ltb x y = true ↔ (x < y)%Qc.
Proof.
  unfold Qc_ltb. destruct (Qclt_le_dec x y) as [H|H]; split; try done.
  intros H'. by apply Qclt_not_le in H'.
Qed.

Lemma Qc_ltb_ge x y : Qc_ltb x y = false ↔ (y ≤ x)%Qc.
Proof.
  unfold Qc_ltb. destruct (Qclt_le_dec x y) as [H|H]; split; try done.
  intros H'. by apply Qclt_not_le in H.
Qed.

Lemma Qc_leb_le x y : Qc_leb x y = true ↔ (x ≤ y)%Qc.
Proof.
  unfold Qc_leb. destruct (Qclt_le_dec y x) as [H|H]; split; try done.
  intros H'. by apply Qclt_not_le in H.
Qed.

Lemma Qc_ltb_irrefl x : Qc_ltb x x = false.
Proof. apply Qc_ltb_ge, Qcle_refl. Qed.

Lemma Qc_trunc_of_Z z : Qc_trunc (Qc_of_Z z) = z.
Proof. unfold Qc_trunc. simpl. apply Z.quot_1_r. Qed.

Lemma Qc_of_Z_le a b : (a ≤ b)%Z → (Qc_of_Z a ≤ Qc_of_Z b)%Qc.
Proof. unfold Qcle, Qle. simpl. lia. Qed.

Lemma Qc_of_Z_lt a b : (a < b)%Z ↔ (Qc_of_Z a < Qc_of_Z b)%Qc.
Proof. unfold Qclt, Qlt. simpl. lia. Qed.

Lemma num_ltb_irrefl x : num_ltb x x = false.
Proof. destruct x; simpl; [done| |done]. apply Qc_ltb_irrefl. Qed.

Lemma num_ltb_asym x y : num_ltb x y = true → num_ltb y x = false.
Proof.
  destruct x, y; simpl; try done.
  rewrite Qc_ltb_lt, Qc_ltb_ge. apply Qclt_le_weak.
Qed.

Lemma num_ltb_trans x y z :
  num_ltb x y = true → num_ltb y z = true → num_ltb x z = true.
Proof.
  destruct x, y, z; simpl; try done.
  rewrite !Qc_ltb_lt. apply Qclt_trans.
Qed.

Lemma num_ltb_total x y : num_ltb x y = false → num_ltb y x = false → x = y.
Proof.
  destruct x, y; simpl; try done.
  rewrite !Qc_ltb_ge. intros H1 H2. f_equal. by apply Qcle_antisym.
Qed.

Lemma num_geb_trans x y z :
  num_ltb y x = false → num_ltb z y = false → num_ltb z x = false.
Proof.
  destruct x, y, z; simpl; try done.
  rewrite !Qc_ltb_ge. intros H1 H2. by eapply Qcle_trans.
Qed.

Lemma num_max_idemp lo x : num_max lo (num_max lo x) = num_max lo x.
Proof.
  unfold num_max. destruct (num_ltb x lo) eqn:H.
  - by rewrite num_ltb_irrefl.
  - by rewrite H.
Qed.

Lemma num_max_ge lo x : num_leb lo (num_max lo x) = true.
Proof.
  unfold num_leb, num_max. destruct (num_ltb x lo) eqn:H.
  - by rewrite num_ltb_irrefl.
  - by rewrite H.
Qed.

Lemma num_leb_of_int a b : (a ≤ b)%Z → num_leb (of_int a) (of_int b) = true.
Proof.
  intros H. unfold num_leb. simpl. apply negb_true_iff, Qc_ltb_ge.
  by apply Qc_of_Z_le.
Qed.

Lemma num_ltb_of_int a b : num_ltb (of_int a) (of_int b) = (a <? b)%Z.
Proof.
  simpl. destruct (a <? b)%Z eqn:Hz.
  - apply Qc_ltb_lt. apply Z.ltb_lt in Hz. by apply (proj1 (Qc_of_Z_lt a b)).
  - apply Qc_ltb_ge. apply Z.ltb_ge in Hz. by apply Qc_of_Z_le.
Qed.

Lemma zero_of_int : zero = of_int 0.
Proof. unfold zero, of_int. f_equal. by apply Qc_is_canon. Qed.

(** ** The stable sort *)

Section StableSortFacts.
Context {A : Type} (ltb : A → A → bool).

Lemma insert_sorted_perm x l : insert_sorted ltb x l ≡ₚ x :: l.
Proof.
  induction l as [|y l IH]; simpl; [done|].
  destruct (ltb y x); [|done].
  rewrite IH. apply Permutation_swap.
Qed.

Lemma stable_sort_perm l : stable_sort ltb l ≡ₚ l.
Proof.
  induction l as [|x l IH]; simpl; [done|].
  by rewrite insert_sorted_perm, IH.
Qed.

Lemma stable_sort_length l : length (stable_sort ltb l) = length l.
Proof. by rewrite stable_sort_perm. Qed.

Lemma stable_sort_elem_of x l : x ∈ stable_sort ltb l ↔ x ∈ l.
Proof. by rewrite stable_sort_perm. Qed.

Lemma stable_sort_NoDup l : NoDup l → NoDup (stable_sort ltb l).
Proof. by rewrite stable_sort_perm. Qed.

(** Elements that the order does not separate keep their places. *)
Lemma insert_sorted_filter (P : A → Prop) `{∀ x, Decision (P x)} x l :
  (∀ a b, P a → P b → ltb a b = false) →
  filter P (insert_sorted ltb x l) = filter P (x :: l).
Proof.
  intros Hcls. induction l as [|y l IH]; simpl; [done|].
  destruct (ltb y x) eqn:Hyx; [|done].
  rewrite !filter_cons in *.
  destruct (decide (P y)) as [Hy|Hy], (decide (P x)) as [Hx|Hx];
    try (by rewrite IH).
  by rewrite (Hcls y x) in Hyx.
Qed.

Lemma stable_sort_filter (P : A → Prop) `{∀ x, Decision (P x)} l :
  (∀ a b, P a → P b → ltb a b = false) →
  filter P (stable_sort ltb l) = filter P l.
Proof.
  intros Hcls. induction l as [|x l IH]; simpl; [done|].
  rewrite insert_sorted_filter by done.
  rewrite !filter_cons. by rewrite IH.
Qed.

(** Sortedness, for an order that is total and transitive on the
    elements sorted. *)
Context (P : A → Prop).
Context (ltb_asym : ∀ a b, P a → P b → ltb a b = true → ltb b a = false).
Context (geb_trans : ∀ a b c, P a → P b → P c →
           ltb b a = false → ltb c b = false → ltb c a = false).

Lemma insert_sorted_Forall x l :
  P x → List.Forall P l → List.Forall P (insert_sorted ltb x l).
Proof.
  intros Hx Hl. rewrite Forall_forall. intros y Hy.
  apply list_elem_of_In in Hy. rewrite insert_sorted_perm in Hy.
  apply elem_of_cons in Hy as [->|Hy]; [done|].
  rewrite Forall_forall in Hl. by apply Hl, list_elem_of_In.
Qed.

Lemma stable_sort_Forall l : List.Forall P l → List.Forall P (stable_sort ltb l).
Proof.
  induction 1 as [|x l Hx Hl IH]; simpl; [constructor|].
  by apply insert_sorted_Forall.
Qed.

Lemma insert_sorted_sorted x l :
  P x → List.Forall P l →
  StronglySorted (λ a b, ltb b a = false) l →
  StronglySorted (λ a b, ltb b a = false) (insert_sorted ltb x l).
Proof.
  intros Hx Hl. induction 1 as [|y l Hs IH Hy]; simpl.
  - repeat constructor.
  - apply Forall_cons_1 in Hl as [Hpy Hl].
    destruct (ltb y x) eqn:Hyx.
    + constructor; [by apply IH|].
      rewrite Forall_forall. intros z Hz.
      apply (Permutation_in _ (insert_sorted_perm x l)) in Hz.
      destruct Hz as [<-|Hz]; [by apply ltb_asym|].
      rewrite Forall_forall in Hy. by apply Hy.
    + constructor; [by constructor|].
      constructor; [done|].
      rewrite Forall_forall in Hy, Hl. rewrite Forall_forall. intros z Hz.
      apply (geb_trans _ y); auto.
Qed.

Lemma stable_sort_sorted l :
  List.Forall P l → StronglySorted (λ a b, ltb b a = false) (stable_sort ltb l).
Proof.
  induction 1 as [|x l Hx Hl IH]; simpl; [constructor|].
  apply insert_sorted_sorted; [done| |done]. by apply stable_sort_Forall.
Qed.
End StableSortFacts.

Lemma StronglySorted_lookup {A} (R : A → A → Prop) (l : list A) i j x y :
  StronglySorted R l → (i < j)%nat → l !! i = Some x → l !! j = Some y → R x y.
Proof.
  intros Hs. revert i j. induction Hs as [|a l Hs IH Ha]; intros i j Hij Hi Hj.
  - discriminate Hi.
  - destruct j as [|j]; [lia|]. simpl in Hj.
    destruct i as [|i]; simpl in Hi.
    + simplify_eq. rewrite Forall_forall in Ha. apply Ha.
      apply list_elem_of_In. by eapply list_elem_of_lookup_2.
    + eapply IH; [|done..]. lia.
Qed.

(** ** The cleaner *)

Lemma has_nan_false xs :
  has_nan xs = false ↔ ∀ o, o ∈ xs → is_Some o.
Proof.
  unfold has_nan. induction xs as [|o xs IH]; simpl.
  - split; [|done]. intros _ o Ho. by apply elem_of_nil in Ho.
  - rewrite orb_false_iff, IH. split.
    + intros [Ho Hxs] o' [->|Ho']%elem_of_cons; [|by apply Hxs].
      by destruct o.
    + intros H. split.
      * destruct (H o) as [x ->]; [left|done].
      * intros o' Ho'. apply H. by right.
Qed.

Lemma has_nan_true xs : has_nan xs = true ↔ None ∈ xs.
Proof.
  unfold has_nan. induction xs as [|o xs IH]; simpl.
  - split; [done|]. intros H. by apply elem_of_nil in H.
  - rewrite orb_true_iff, IH, elem_of_cons. destruct o as [x|].
    + split; [intros [H|H]; [done|by right]|intros [H|H]; [done|by right]].
    + split; intros _; by left.
Qed.

Lemma omap_id_nil {A} (xs : list (option A)) :
  omap id xs = [] ↔ ∀ o, o ∈ xs → o = None.
Proof.
  induction xs as [|o xs IH]; simpl.
  - split; [|done]. intros _ o Ho. by apply elem_of_nil in Ho.
  - destruct o as [x|]; simpl.
    + split; [done|]. intros H. specialize (H (Some x)).
      discriminate H. left.
    + rewrite IH. split.
      * intros H o [->|Ho]%elem_of_cons; auto.
      * intros H o Ho. apply H. by right.
Qed.

Lemma fillna_None (xs : list (option number)) :
  (λ o : option number, match o with Some x => Some x | None => None end) <$> xs = xs.
Proof.
  induction xs as [|[x|] xs IH]; csimpl; [done|by rewrite IH..].
Qed.

Lemma fillna_Some_no_nan m (xs : list (option number)) :
  has_nan ((λ o : option number, match o with Some x => Some x | None => Some m end) <$> xs)
  = false.
Proof.
  unfold has_nan. induction xs as [|[x|] xs IH]; simpl; done.
Qed.

(** Clipping keeps the missing cells missing and the others present. *)
Lemma has_nan_clip lo (xs : list (option number)) :
  has_nan ((λ o : option number, num_max lo <$> o) <$> xs) = has_nan xs.
Proof.
  unfold has_nan. induction xs as [|[x|] xs IH]; csimpl; done.
Qed.

Lemma clip_idemp lo (xs : list (option number)) :
  (λ o : option number, num_max lo <$> o) <$>
    ((λ o : option number, num_max lo <$> o) <$> xs)
  = (λ o : option number, num_max lo <$> o) <$> xs.
Proof.
  rewrite <- list_fmap_compose. apply list_fmap_ext. intros _ [x|] _; simpl; [|done].
  by rewrite num_max_idemp.
Qed.

Section CleaningFacts.
Context {np : Numpy}.
Context (parse : string → option number).

(** After one pass of step 2 a column has nothing left to fill. *)
Lemma fill_median_idemp c : fill_median (fill_median c) = fill_median c.
Proof.
  destruct c as [zs|xs|vs]; simpl; try done.
  destruct (has_nan xs) eqn:Hnan; simpl; [|by rewrite Hnan].
  destruct (nanmedian xs) as [m|] eqn:Hm.
  - by rewrite fillna_Some_no_nan.
  - rewrite fillna_None. simpl. rewrite Hnan. simpl.
    by rewrite Hm, fillna_None.
Qed.

Lemma clip_value_idemp lo v v' :
  clip_value lo v = Ok v' → clip_value lo v' = Ok v'.
Proof.
  destruct v as [q|s|]; simpl; intros [= <-]; simpl; [|done].
  by rewrite num_max_idemp.
Qed.

Lemma clip_lower_idemp lo c c' :
  clip_lower lo c = Ok c' → clip_lower lo c' = Ok c'.
Proof.
  destruct c as [zs|xs|vs]; simpl.
  - intros [= <-]. simpl. f_equal. f_equal.
    rewrite <- list_fmap_compose. apply list_fmap_ext. intros _ z _. simpl. lia.
  - intros [= <-]. simpl. f_equal. f_equal. apply clip_idemp.
  - intros H. apply rfmap_Ok in H as (vs' & Hvs' & ->). simpl.
    rewrite mapM_Ok_id; [done|].
    apply mapM_Ok_Forall2 in Hvs'.
    induction Hvs' as [|v v' vs vs' Hv _ IH]; constructor; [|done].
    by eapply clip_value_idemp.
Qed.

(** Steps 2 and 3 on a column that went through them once. *)
Lemma fill_clip_again d0 c :
  clip_lower 0 (fill_median d0) = Ok c →
  ∃ c2, clip_lower 0 (fill_median c) = Ok c2 ∧ (c2 = c ↔ ¬ refilled d0).
Proof.
  destruct d0 as [zs|xs|vs]; simpl.
  - intros H. exists c. split; [|tauto].
    injection H as <-. simpl. f_equal. f_equal.
    rewrite <- list_fmap_compose. apply list_fmap_ext. intros _ z _. simpl. lia.
  - destruct (has_nan xs) eqn:Hnan; simpl.
    + destruct (nanmedian xs) as [m|] eqn:Hm; simpl.
      * intros [= <-]. eexists. simpl.
        rewrite has_nan_clip, fillna_Some_no_nan. simpl.
        split; [by rewrite clip_idemp|]. split; [|done]. by intros _ (_ & ? & _).
      * rewrite fillna_None. intros [= <-]. simpl. rewrite has_nan_clip, Hnan.
        set (ys := (λ o : option number, num_max (of_int 0) <$> o) <$> xs).
        destruct (nanmedian ys) as [m'|] eqn:Hm'; simpl.
        -- eexists. split; [done|]. split.
           ++ intros [= Heq]. exfalso.
              assert (Hys : has_nan ys = true) by (unfold ys; by rewrite has_nan_clip).
              apply (f_equal has_nan) in Heq.
              rewrite has_nan_clip, fillna_Some_no_nan, Hys in Heq. done.
           ++ intros Hno. destruct Hno. by split_and!.
        -- eexists. rewrite fillna_None. unfold ys. split; [by rewrite clip_idemp|].
           split; [|done]. intros _ (_ & _ & [? ?]). done.
    + intros [= <-]. eexists. simpl. rewrite has_nan_clip, Hnan. simpl.
      split; [by rewrite clip_idemp|]. split; [|done]. by intros _ (? & _).
  - intros H. exists c. split; [|tauto].
    apply rfmap_Ok in H as (vs' & Hvs' & ->). simpl.
    change (clip_lower 0 (ObjCol vs') = Ok (ObjCol vs')).
    eapply (clip_lower_idemp 0 (ObjCol vs)). simpl. by rewrite Hvs'.
Qed.

Lemma security_int_fill (xs : list (option number)) :
  mapM float_int
    ((λ o, match o with Some x => Some x | None => Some (of_int 0) end) <$> xs)
  = mapM security_int xs.
Proof.
  rewrite mapM_fmap. apply mapM_ext. by intros [x|].
Qed.

Lemma security_cast (s : column) :
  astype_int (fillna (Some (of_int 0)) (to_numeric parse s))
  = IntCol <$> security_ints parse s.
Proof.
  destruct s as [zs|xs|vs]; simpl; [done|..].
  - by rewrite security_int_fill.
  - by rewrite security_int_fill, mapM_fmap.
Qed.

(** Step 1 needs the column, and that none of its cells is infinite; it
    leaves in it the integers [security_ints]. *)
Lemma coerce_security_incidents_eq (df : DataFrame) :
  coerce_security_incidents parse df =
  match df !! "Security_Incidents" with
  | Some s =>
      zs ← security_ints parse s;
      Ok (<["Security_Incidents" := IntCol zs]> df)
  | None => Raise (KeyError "Security_Incidents")
  end.
Proof.
  unfold coerce_security_incidents, getitem.
  destruct (df !! "Security_Incidents") as [s|] eqn:Hs; simpl; [|done].
  rewrite lookup_insert_eq. simpl. rewrite security_cast.
  destruct (security_ints parse s) as [zs|e]; simpl; [|done].
  by rewrite insert_insert_eq.
Qed.

(** What [clean_dataframe] returns, step by step. *)
Lemma clean_dataframe_Ok (df out : DataFrame) :
  clean_dataframe parse df = Ok out ↔
  ∃ s zs, df !! "Security_Incidents" = Some s ∧
    security_ints parse s = Ok zs ∧
    let filled := fill_numeric_nulls (<["Security_Incidents" := IntCol zs]> df) in
    match filled !! "Avg_Delay_Min" with
    | Some d => ∃ c, clip_lower 0 d = Ok c ∧ out = <["Avg_Delay_Min" := c]> filled
    | None => out = filled
    end.
Proof.
  unfold clean_dataframe. rewrite coerce_security_incidents_eq.
  destruct (df !! "Security_Incidents") as [s|]; simpl.
  - destruct (security_ints parse s) as [zs|e] eqn:Hzs; simpl.
    + unfold clip_delays.
      destruct (fill_numeric_nulls _ !! "Avg_Delay_Min") as [d|] eqn:Hd.
      * split.
        -- intros H. exists s, zs. split_and!; [done..|]. rewrite Hd.
           apply rbind_Ok in H as (c & Hc & [= <-]). by exists c.
        -- intros (s' & zs' & [= <-] & Hzs' & H). rewrite Hzs in Hzs'.
           injection Hzs' as <-. rewrite Hd in H.
           destruct H as (c & -> & ->). done.
      * split.
        -- intros [= <-]. exists s, zs. split_and!; [done..|]. by rewrite Hd.
        -- intros (s' & zs' & [= <-] & Hzs' & H). rewrite Hzs in Hzs'.
           injection Hzs' as <-. rewrite Hd in H. by subst.
    + split; [done|]. intros (s' & zs' & [= <-] & Hzs' & _). congruence.
  - split; [done|]. by intros (s & zs & ? & _).
Qed.

(** The cleaner accepts every table whose [Security_Incidents] column
    can be cast and whose delay column, if any, holds no text. *)
Lemma clean_dataframe_returns (df : DataFrame) s zs :
  df !! "Security_Incidents" = Some s →
  security_ints parse s = Ok zs →
  (∀ d, df !! "Avg_Delay_Min" = Some d → is_numeric_dtype d) →
  is_Ok (clean_dataframe parse df).
Proof.
  intros Hs Hzs Hd. unfold clean_dataframe.
  rewrite coerce_security_incidents_eq, Hs, Hzs. simpl. unfold clip_delays.
  destruct (fill_numeric_nulls _ !! "Avg_Delay_Min") as [d|] eqn:Hd'; [|by eexists].
  unfold fill_numeric_nulls in Hd'. rewrite lookup_fmap in Hd'.
  rewrite lookup_insert_ne in Hd' by done.
  destruct (df !! "Avg_Delay_Min") as [d0|] eqn:Hd0; simplify_eq/=.
  specialize (Hd d0 eq_refl).
  destruct d0 as [zs'|xs|vs]; simpl in *; [by eexists| |done].
  destruct (has_nan xs); by eexists.
Qed.

Lemma fill_numeric_nulls_idemp (df : DataFrame) :
  fill_numeric_nulls (fill_numeric_nulls df) = fill_numeric_nulls df.
Proof.
  unfold fill_numeric_nulls. rewrite <- map_fmap_compose.
  apply map_fmap_ext. intros k c _. apply fill_median_idemp.
Qed.

(** Cleaning a cleaned table: step 1 has nothing to do, step 2 nothing
    outside the delay column, and steps 2 and 3 run again on the delays. *)
Lemma clean_dataframe_again (df out : DataFrame) :
  clean_dataframe parse df = Ok out →
  ∃ out2, clean_dataframe parse out = Ok out2 ∧
    (out2 = out ↔ ∀ d0, df !! "Avg_Delay_Min" = Some d0 → ¬ refilled d0).
Proof.
  intros Hout. apply clean_dataframe_Ok in Hout as (s & zs & Hs & Hzs & Hout).
  simpl in Hout.
  set (df0 := <["Security_Incidents" := IntCol zs]> df) in *.
  assert (Hsi0 : fill_numeric_nulls df0 !! "Security_Incidents" = Some (IntCol zs)).
  { unfold fill_numeric_nulls, df0. by rewrite lookup_fmap, lookup_insert_eq. }
  assert (Hd0 : fill_numeric_nulls df0 !! "Avg_Delay_Min"
                = fill_median <$> df !! "Avg_Delay_Min").
  { unfold fill_numeric_nulls, df0. by rewrite lookup_fmap, lookup_insert_ne. }
  unfold clean_dataframe. rewrite coerce_security_incidents_eq.
  rewrite Hd0 in Hout.
  destruct (df !! "Avg_Delay_Min") as [d0|] eqn:Hd; simpl in Hout.
  - destruct Hout as (c & Hc & ->).
    destruct (fill_clip_again _ _ Hc) as (c2 & Hc2 & Hiff).
    rewrite lookup_insert_ne, Hsi0 by done. simpl.
    rewrite (insert_id _ "Security_Incidents") by (by rewrite lookup_insert_ne).
    unfold fill_numeric_nulls at 1. rewrite fmap_insert.
    fold (fill_numeric_nulls (fill_numeric_nulls df0)).
    rewrite fill_numeric_nulls_idemp.
    unfold clip_delays. rewrite lookup_insert_eq, Hc2. simpl.
    rewrite insert_insert_eq. eexists. split; [done|].
    split.
    + intros Heq d0' [= <-]. apply Hiff.
      apply (f_equal (λ m : DataFrame, m !! "Avg_Delay_Min")) in Heq.
      rewrite !lookup_insert_eq in Heq. by injection Heq.
    + intros Hno. f_equal. by apply Hiff, Hno.
  - subst out. rewrite Hsi0. simpl. rewrite insert_id by done.
    rewrite fill_numeric_nulls_idemp. unfold clip_delays. rewrite Hd0. simpl.
    eexists. split; [done|]. split; [done|done].
Qed.

(** Under the IEEE laws a column of finite delays is never filled at the
    second cleaning. *)
Lemma finite_delays_settled `{!NumpyLaws np} (df : DataFrame) :
  finite_delays df → ¬ delay_refilled df.
Proof.
  intros Hfin ([zs|xs|vs] & Hxs & Hr); simpl in Hr; [done| |done].
  destruct Hr as (Hnan & Hmed & Hmed').
  assert (Hall : ∀ o, o ∈ xs → o = None).
  { intros [x|] Ho; [|done]. exfalso.
    destruct (nanmedian_number xs) as [m Hm]; [|by exists x|congruence].
    intros y Hy. by eapply Hfin. }
  rewrite nanmedian_missing in Hmed'; [by destruct Hmed'|].
  intros o (o' & -> & Ho')%list_elem_of_fmap. by rewrite (Hall o' Ho').
Qed.

(** C2 (as amended).  Cleaning a cleaned table returns, and returns the
    table unchanged unless [Avg_Delay_Min] is a float column with a missing
    cell whose median is NaN before the clipping and a number after it; it
    is unchanged, in particular, when every delay is finite or missing. *)
Theorem clean_dataframe_idempotent_unless_refilled (df out : DataFrame) :
  clean_dataframe parse df = Ok out →
  ∃ out2, clean_dataframe parse out = Ok out2 ∧
    (out2 = out ↔ ¬ delay_refilled df) ∧
    (NumpyLaws np → finite_delays df → out2 = out).
Proof.
  intros Hout. destruct (clean_dataframe_again _ _ Hout) as (out2 & Hout2 & Hiff).
  exists out2. split; [done|].
  assert (Hiff' : out2 = out ↔ ¬ delay_refilled df).
  { rewrite Hiff. unfold delay_refilled. split.
    - intros H (d0 & Hd0 & Hr). by eapply H.
    - intros H d0 Hd0 Hr. apply H. by exists d0. }
  split; [done|]. intros Hlaws Hfin. apply Hiff'. by apply finite_delays_settled.
Qed.
End CleaningFacts.

(** C2 (as stated) fails on delays that hold both infinities and a blank:
    the first cleaning finds no median ([inf - inf] is NaN) and leaves the
    blank; clipping turns [-inf] into 0, and the second cleaning fills the
    blank with the median of [inf] and [0]. *)
Lemma clean_dataframe_not_idempotent :
  clean_dataframe (np := ideal) no_number delays_infinite = Ok delays_cleaned ∧
  clean_dataframe (np := ideal) no_number delays_cleaned = Ok delays_cleaned_again ∧
  delays_cleaned !! "Avg_Delay_Min"
    = Some (FloatCol [Some PInf; Some (of_int 0); None]) ∧
  delays_cleaned_again !! "Avg_Delay_Min"
    = Some (FloatCol [Some PInf; Some (of_int 0); Some PInf]) ∧
  delays_cleaned_again ≠ delays_cleaned.
Proof.
  split; [reflexivity|]. split; [reflexivity|].
  split; [vm_compute; reflexivity|]. split; [vm_compute; reflexivity|].
  intros H. apply (f_equal (λ m : DataFrame, m !! "Avg_Delay_Min")) in H.
  vm_compute in H. discriminate H.
Qed.

(** ** Delays after cleaning *)

Section DelayFacts.
Context {np : Numpy}.
Context (parse : string → option number).

Lemma nonneg_clipped x : nonneg_cell (VNum (num_max (of_int 0) x)).
Proof.
  eexists. split; [done|]. rewrite zero_of_int. apply num_max_ge.
Qed.

Lemma clip_lower_cells c c' :
  clip_lower 0 c = Ok c' →
  Forall (λ v, v = VNaN ∨ nonneg_cell v) (cells c').
Proof.
  destruct c as [zs|xs|vs]; simpl.
  - intros [= <-]. simpl. apply Forall_fmap, Forall_fmap, Forall_true.
    intros z. right. eexists. split; [done|].
    rewrite zero_of_int. apply num_leb_of_int. lia.
  - intros [= <-]. simpl. apply Forall_fmap, Forall_fmap, Forall_true.
    intros [x|]; simpl; [|by left]. right. apply nonneg_clipped.
  - intros H. apply rfmap_Ok in H as (vs' & Hvs' & ->). simpl.
    apply mapM_Ok_Forall2 in Hvs'.
    induction Hvs' as [|v v' vs vs' Hv _ IH]; constructor; [|done].
    destruct v as [q|s|]; simplify_eq/=; [|by left].
    right. apply nonneg_clipped.
Qed.

Lemma clip_lower_no_missing lo c c' :
  clip_lower lo c = Ok c' → no_missing c → no_missing c'.
Proof.
  destruct c as [zs|xs|vs]; simpl.
  - by intros [= <-].
  - intros [= <-]. simpl. by rewrite has_nan_clip.
  - intros H. apply rfmap_Ok in H as (vs' & Hvs' & ->). simpl.
    apply mapM_Ok_Forall2 in Hvs'.
    induction Hvs' as [|v v' vs vs' Hv _ IH]; [done|].
    rewrite !not_elem_of_cons. intros [Hne Hvs]. split; [|by apply IH].
    destruct v; simplify_eq/=; done.
Qed.

Lemma no_missing_cells c :
  no_missing c → Forall (λ v, v ≠ VNaN) (cells c).
Proof.
  destruct c as [zs|xs|vs]; simpl.
  - intros _. apply Forall_fmap, Forall_true. done.
  - rewrite has_nan_false. intros H. apply Forall_fmap, Forall_forall.
    intros o Ho%list_elem_of_In. by destruct (H o Ho) as [x ->].
  - intros H. apply Forall_forall. intros v Hv%list_elem_of_In ->. done.
Qed.

(** Step 2 completes every imputable column. *)
Lemma fill_median_no_missing c : imputable c → no_missing (fill_median c).
Proof.
  destruct c as [zs|xs|vs]; simpl; [done| |done].
  destruct (has_nan xs) eqn:Hnan; simpl; [|by rewrite Hnan].
  intros [?|[m Hm]]; [done|]. rewrite Hm. apply fillna_Some_no_nan.
Qed.

(** Under the IEEE laws a float column is imputable when the numbers it
    holds are finite and there is at least one. *)
Lemma finite_imputable `{!NumpyLaws np} xs :
  (∀ x, Some x ∈ xs → finite x) → (∃ x, Some x ∈ xs) → imputable (FloatCol xs).
Proof. intros Hfin Hex. right. by apply nanmedian_number. Qed.

(** The delay column of the cleaned table, from the raw one. *)
Lemma clean_dataframe_delay (df out : DataFrame) d :
  clean_dataframe parse df = Ok out →
  out !! "Avg_Delay_Min" = Some d →
  ∃ d0, df !! "Avg_Delay_Min" = Some d0 ∧ clip_lower 0 (fill_median d0) = Ok d.
Proof.
  intros Hout Hd. apply clean_dataframe_Ok in Hout as (s & zs & Hs & Hzs & Hout).
  simpl in Hout. unfold fill_numeric_nulls in Hout.
  rewrite lookup_fmap, lookup_insert_ne in Hout by done.
  destruct (df !! "Avg_Delay_Min") as [d0|] eqn:Hd0; simpl in Hout.
  - destruct Hout as (c & Hc & ->). rewrite lookup_insert_eq in Hd.
    simplify_eq. by exists d0.
  - subst out. rewrite lookup_fmap, lookup_insert_ne, Hd0 in Hd by done.
    discriminate Hd.
Qed.

(** C8 (as amended).  In the cleaned table no delay is negative: every
    cell of [Avg_Delay_Min] is a number that is at least 0, or is missing;
    and none is missing when the raw column has no missing cell or has a
    median that is a number, as it has under the IEEE laws when its
    numbers are finite and there is at least one. *)
Theorem clean_dataframe_delay_nonneg (df out : DataFrame) d :
  clean_dataframe parse df = Ok out →
  out !! "Avg_Delay_Min" = Some d →
  Forall (λ v, v = VNaN ∨ nonneg_cell v) (cells d) ∧
  (∀ d0, df !! "Avg_Delay_Min" = Some d0 → imputable d0 →
         Forall nonneg_cell (cells d)) ∧
  (NumpyLaws np →
   ∀ xs, df !! "Avg_Delay_Min" = Some (FloatCol xs) →
         (∀ x, Some x ∈ xs → finite x) → (∃ x, Some x ∈ xs) →
         Forall nonneg_cell (cells d)).
Proof.
  intros Hout Hd.
  destruct (clean_dataframe_delay _ _ _ Hout Hd) as (d0 & Hd0 & Hclip).
  pose proof (clip_lower_cells _ _ Hclip) as Hcells.
  assert (Himp : imputable d0 → Forall nonneg_cell (cells d)).
  { intros Himp.
    pose proof (no_missing_cells d
      (clip_lower_no_missing _ _ _ Hclip (fill_median_no_missing _ Himp))) as Hnm.
    rewrite Forall_forall in Hcells, Hnm. apply Forall_forall. intros v Hv.
    destruct (Hcells v Hv) as [->|?]; [by destruct (Hnm VNaN Hv)|done]. }
  split; [done|]. split.
  - intros d0' Hd0'. simplify_eq. done.
  - intros Hlaws xs Hxs Hfin Hex. simplify_eq. by apply Himp, finite_imputable.
Qed.
End DelayFacts.

(** C8 (as stated) fails on a delay column that is empty in every row:
    there is no median to impute, the cells stay missing, and a missing
    value is not [≥ 0]. *)
Lemma clean_dataframe_delay_missing :
  (clean_dataframe (np := ideal) no_number delays_all_missing
     ≫= λ out, getitem out "Avg_Delay_Min") = Ok (FloatCol [None; None]) ∧
  ¬ Forall nonneg_cell (cells (FloatCol [None; None])).
Proof.
  split; [by vm_compute|].
  intros H. apply Forall_cons_1 in H as [(q & Hq & _) _]. discriminate Hq.
Qed.

(** ** The feature engineer *)

Lemma getitem_insert_eq (df : DataFrame) col c :
  getitem (<[col := c]> df) col = Ok c.
Proof. unfold getitem. by rewrite lookup_insert_eq. Qed.

Lemma getitem_insert_ne (df : DataFrame) col col' c :
  col' ≠ col → getitem (<[col' := c]> df) col = getitem df col.
Proof. intros H. unfold getitem. by rewrite lookup_insert_ne. Qed.

Lemma mapM_Ok_fmap {A B} (f : A → result B) (g : A → B) (l : list A) :
  (∀ x, x ∈ l → f x = Ok (g x)) → mapM f l = Ok (g <$> l).
Proof.
  induction l as [|x l IH]; intros H; [done|].
  simpl. rewrite (H x) by left. simpl. rewrite IH; [done|].
  intros y Hy. apply H. by right.
Qed.

Lemma ZONE_CAPACITY_in_int64 s z :
  ZONE_CAPACITY !! s = Some z → in_int64 z = true.
Proof.
  intros H. apply elem_of_list_to_map_2 in H.
  repeat (apply elem_of_cons in H as [[= -> ->]|H]; [reflexivity|]).
  by apply elem_of_nil in H.
Qed.

Lemma fpos_of_int z : fpos (Some (of_int z)) = (0 <? z)%Z.
Proof. unfold fpos. rewrite zero_of_int. apply num_ltb_of_int. Qed.

Section FeatureFacts.
Context {np : Numpy}.

Lemma float_int_of_int z : in_int64 z = true → float_int (Some (of_int z)) = Ok z.
Proof. intros H. simpl. by rewrite Qc_trunc_of_Z, H. Qed.

Lemma zone_capacity_column zone :
  astype_int (fillna (Some (of_int 200)) (map_dict ZONE_CAPACITY zone))
  = Ok (IntCol (zone_capacity_of ZONE_CAPACITY <$> cells zone)).
Proof.
  unfold map_dict. simpl. rewrite mapM_fmap, mapM_fmap.
  rewrite (mapM_Ok_fmap _ (zone_capacity_of ZONE_CAPACITY)); [done|].
  intros v _. destruct v as [x|s|].
  - by apply (float_int_of_int 200).
  - cbv beta iota. unfold zone_capacity_of.
    destruct (ZONE_CAPACITY !! s) as [z|] eqn:Hz.
    + apply (float_int_of_int z). by eapply ZONE_CAPACITY_in_int64.
    + by apply (float_int_of_int 200).
  - by apply (float_int_of_int 200).
Qed.

(** What [add_engineered_features] returns: the six columns it adds, from
    the columns it reads. *)
Lemma add_engineered_features_Ok (df out : DataFrame) :
  add_engineered_features df = Ok out →
  ∃ zone slot prepared sold foot prep diff bus pass,
    df !! "Zone" = Some zone ∧
    df !! "Time_Slot" = Some slot ∧
    df !! "Prepared_Qty" = Some prepared ∧
    df !! "Orders" = Some sold ∧
    getitem df "Footfall" ≫= as_float = Ok foot ∧
    as_float prepared = Ok prep ∧
    difference prepared sold = Ok diff ∧
    getitem df "Bus_Capacity" ≫= as_float = Ok bus ∧
    getitem df "Passengers" ≫= as_float = Ok pass ∧
    let caps := zone_capacity_of ZONE_CAPACITY <$> cells zone in
    out = <["time_slot_encoded" := IntCol (cat_codes (cells slot))]>
          (<["zone_encoded" := IntCol (cat_codes (cells zone))]>
          (<["transport_utilization" := FloatCol (where_ratio bus pass)]>
          (<["waste_percent" := FloatCol (where_ratio prep diff)]>
          (<["congestion_index" :=
               FloatCol (where_ratio ((λ z, Some (of_int z)) <$> caps) foot)]>
          (<["zone_capacity" := IntCol caps]> df))))).
Proof.
  unfold add_engineered_features. intros H.
  apply rbind_Ok in H as (zone & Hzone%getitem_Ok & H).
  rewrite zone_capacity_column in H. simpl in H.
  rewrite getitem_insert_eq in H. simpl in H.
  rewrite getitem_insert_ne in H by done.
  apply rbind_Ok in H as (foot & Hfoot & H). cbv beta zeta in H.
  rewrite ?getitem_insert_ne in H by done.
  apply rbind_Ok in H as (prepared & Hprepared%getitem_Ok & H). cbv beta zeta in H.
  apply rbind_Ok in H as (prep & Hprep & H). cbv beta zeta in H.
  rewrite ?getitem_insert_ne in H by done.
  apply rbind_Ok in H as (sold & Hsold%getitem_Ok & H). cbv beta zeta in H.
  apply rbind_Ok in H as (diff & Hdiff & H). cbv beta zeta in H.
  rewrite ?getitem_insert_ne in H by done.
  apply rbind_Ok in H as (bus & Hbus & H). cbv beta zeta in H.
  rewrite ?getitem_insert_ne in H by done.
  apply rbind_Ok in H as (pass & Hpass & H). cbv beta zeta in H.
  rewrite ?getitem_insert_ne in H by done.
  apply rbind_Ok in H as (zone' & Hzone'%getitem_Ok & H). cbv beta zeta in H.
  rewrite ?getitem_insert_ne in H by done.
  apply rbind_Ok in H as (slot & Hslot%getitem_Ok & H). cbv beta zeta in H.
  injection H as <-. simplify_eq.
  by exists zone, slot, prepared, sold, foot, prep, diff, bus, pass.
Qed.

Lemma float_at_getitem (df : DataFrame) col xs i a :
  getitem df col ≫= as_float = Ok xs →
  float_at df col i a ↔ xs !! i = Some a.
Proof.
  intros H. apply rbind_Ok in H as (c & Hc%getitem_Ok & Hxs).
  unfold float_at. split.
  - intros (c' & xs' & Hc' & Hxs' & Hi).
    rewrite Hc in Hc'. injection Hc' as <-.
    rewrite Hxs in Hxs'. by injection Hxs' as <-.
  - intros Hi. by exists c, xs.
Qed.

Lemma float_at_column (df : DataFrame) col c xs i a :
  df !! col = Some c → as_float c = Ok xs →
  float_at df col i a ↔ xs !! i = Some a.
Proof.
  intros Hc Hxs. apply float_at_getitem. unfold getitem. by rewrite Hc.
Qed.

Lemma float_at_insert (df : DataFrame) col xs i a :
  xs !! i = Some a → float_at (<[col := FloatCol xs]> df) col i a.
Proof. intros H. exists (FloatCol xs), xs. by rewrite lookup_insert_eq. Qed.

Lemma float_at_insert_ne (df : DataFrame) col col' c i a :
  col' ≠ col → float_at df col i a → float_at (<[col' := c]> df) col i a.
Proof.
  intros Hne (c' & xs & Hc & Hxs & Hi). exists c', xs.
  by rewrite lookup_insert_ne.
Qed.

Lemma where_ratio_lookup den num i d n :
  den !! i = Some d → num !! i = Some n →
  where_ratio den num !! i = Some (if fpos d then np_divide n d else Some zero).
Proof.
  intros Hd Hn. unfold where_ratio. rewrite lookup_zip_with, Hd. simpl.
  by rewrite Hn.
Qed.

(** The cell of [Prepared_Qty - Orders]: the wrapped difference of two
    integers, the float difference otherwise. *)
Lemma difference_lookup p s ds i d :
  difference p s = Ok ds → ds !! i = Some d →
  match p, s with
  | IntCol ps, IntCol ss =>
      ∃ x y, ps !! i = Some x ∧ ss !! i = Some y ∧
             d = Some (of_int (wrap64 (x - y)))
  | _, _ =>
      ∃ xp xs a b, as_float p = Ok xp ∧ as_float s = Ok xs ∧
                   xp !! i = Some a ∧ xs !! i = Some b ∧ d = np_subtract a b
  end.
Proof.
  assert (Hfloat : (xa ← as_float p; xb ← as_float s;
                    Ok (zip_with np_subtract xa xb)) = Ok ds →
                   ds !! i = Some d →
                   ∃ xp xs a b, as_float p = Ok xp ∧ as_float s = Ok xs ∧
                     xp !! i = Some a ∧ xs !! i = Some b ∧ d = np_subtract a b).
  { intros H Hi. apply rbind_Ok in H as (xp & Hxp & H).
    apply rbind_Ok in H as (xs & Hxs & [= <-]).
    apply lookup_zip_with_Some in Hi as (a & b & -> & Ha & Hb).
    by exists xp, xs, a, b. }
  destruct p as [ps|xp|vp], s as [ss|xs|vs]; try exact Hfloat.
  simpl. intros [= <-] Hi.
  apply lookup_zip_with_Some in Hi as (x & y & -> & Hx & Hy).
  by exists x, y.
Qed.

Lemma no_missing_float c xs i a :
  no_missing c → as_float c = Ok xs → xs !! i = Some a → is_Some a.
Proof.
  destruct c as [zs|ys|vs]; simpl.
  - intros _ [= <-]. rewrite list_lookup_fmap.
    destruct (zs !! i); intros [= <-]. by eexists.
  - intros Hnan [= <-] Hi. rewrite has_nan_false in Hnan.
    apply Hnan. by eapply list_elem_of_lookup_2.
  - intros Hnan Hxs Hi.
    destruct (lookup_lt_is_Some_2 vs i) as [v Hv].
    { rewrite <- (mapM_Ok_length _ _ _ Hxs). by eapply lookup_lt_Some. }
    destruct (mapM_Ok_lookup _ _ _ _ _ Hxs Hv) as (a' & Ha' & Hi').
    rewrite Hi in Hi'. injection Hi' as <-.
    destruct v as [q|s|]; simplify_eq/=; [by eexists|].
    destruct Hnan. by eapply list_elem_of_lookup_2.
Qed.

Context (parse : string → option number).

(** Outside the two columns the cleaner treats by name, a column of the
    cleaned table is the raw column after median imputation. *)
Lemma clean_dataframe_column (raw df : DataFrame) col :
  clean_dataframe parse raw = Ok df →
  col ≠ "Security_Incidents" → col ≠ "Avg_Delay_Min" →
  df !! col = fill_median <$> raw !! col.
Proof.
  intros Hdf Hsi Hdelay. apply clean_dataframe_Ok in Hdf as (s & zs & Hs & Hzs & Hdf).
  simpl in Hdf.
  assert (Hfilled : fill_numeric_nulls
            (<["Security_Incidents" := IntCol zs]> raw) !! col
          = fill_median <$> raw !! col).
  { unfold fill_numeric_nulls. by rewrite lookup_fmap, lookup_insert_ne. }
  destruct (fill_numeric_nulls _ !! "Avg_Delay_Min").
  - destruct Hdf as (c' & _ & ->). by rewrite lookup_insert_ne.
  - by subst df.
Qed.

Lemma clean_dataframe_no_missing (raw df : DataFrame) col c i a :
  clean_dataframe parse raw = Ok df →
  col ≠ "Security_Incidents" → col ≠ "Avg_Delay_Min" →
  raw !! col = Some c → imputable c →
  float_at df col i a → is_Some a.
Proof.
  intros Hdf Hsi Hdelay Hc Himp (c' & xs & Hc' & Hxs & Hi).
  rewrite (clean_dataframe_column _ _ _ Hdf Hsi Hdelay), Hc in Hc'.
  injection Hc' as <-.
  eapply no_missing_float; [|done..]. by apply fill_median_no_missing.
Qed.
End FeatureFacts.

Section FeatureSoundness.
Context {np : Numpy}.
Context (parse : string → option number).

Lemma both_int64_dec (df : DataFrame) : both_int64 df ∨ ¬ both_int64 df.
Proof.
  unfold both_int64.
  destruct (df !! "Prepared_Qty") as [[ps|?|?]|]; [|right; by intros (?&?&?&?)..].
  destruct (df !! "Orders") as [[ss|?|?]|]; [|right; by intros (?&?&?&?)..].
  left. by exists ps, ss.
Qed.

Lemma finite_not_infinite x : finite x → ¬ infinite x.
Proof. intros [q ->] [?|?]; done. Qed.

Lemma difference_int (df : DataFrame) i d p s :
  difference_at df i d →
  int_at df "Prepared_Qty" i p → int_at df "Orders" i s →
  d = Some (of_int (wrap64 (p - s))).
Proof.
  intros (pc & sc & ds & Hpc & Hsc & Hds & Hd) (ps & Hps & Hp) (ss & Hss & Hs).
  simplify_eq. pose proof (difference_lookup _ _ _ _ _ Hds Hd) as H.
  simpl in H. destruct H as (x & y & Hx & Hy & ->). by simplify_eq.
Qed.

Lemma difference_float (df : DataFrame) i d a b :
  difference_at df i d →
  float_at df "Prepared_Qty" i a → float_at df "Orders" i b →
  ¬ both_int64 df → d = np_subtract a b.
Proof.
  intros (pc & sc & ds & Hpc & Hsc & Hds & Hd)
         (pc' & xp & Hpc' & Hxp & Ha) (sc' & xs & Hsc' & Hxs & Hb) Hno.
  simplify_eq. pose proof (difference_lookup _ _ _ _ _ Hds Hd) as H.
  destruct pc as [ps|fp|vp], sc as [ss|fs|vs];
    try (destruct H as (xp' & xs' & a' & b' & Hxp' & Hxs' & Ha' & Hb' & ->);
         rewrite Hxp in Hxp'; rewrite Hxs in Hxs'; by simplify_eq).
  destruct Hno. by exists ps, ss.
Qed.

(** The difference is a number when [Prepared_Qty] is finite and
    [Orders] is there. *)
Lemma difference_number `{!NumpyLaws np} (df : DataFrame) i d x y :
  difference_at df i d →
  float_at df "Prepared_Qty" i (Some x) → float_at df "Orders" i (Some y) →
  finite x → is_Some d.
Proof.
  intros Hd Hx Hy Hfin.
  destruct (both_int64_dec df) as [Hboth|Hno].
  - destruct Hboth as (ps & ss & Hps & Hss).
    destruct Hx as (pc & xp & Hpc & Hxp & Hx), Hy as (sc & xs & Hsc & Hxs & Hy).
    simplify_eq/=. rewrite list_lookup_fmap in Hx, Hy.
    destruct (ps !! i) as [p|] eqn:Hp; [|done].
    destruct (ss !! i) as [s|] eqn:Hs; [|done].
    rewrite (difference_int df i d p s); [by eexists|done|..].
    + by exists ps.
    + by exists ss.
  - rewrite (difference_float df i d (Some x) (Some y)) by done.
    apply subtract_number. intros [Hinf _]. by apply (finite_not_infinite x).
Qed.

End FeatureSoundness.


(** ** Label encoding *)

Lemma str_ltb_lt a b : str_ltb a b = true ↔ String_as_OT.lt a b.
Proof.
  unfold str_ltb, String_as_OT.lt.
  destruct (String_as_OT.compare a b); split; congruence.
Qed.

Lemma str_ltb_irrefl a : str_ltb a a = false.
Proof.
  apply not_true_is_false. rewrite str_ltb_lt.
  apply (StrictOrder_Irreflexive (R := String_as_OT.lt)).
Qed.

Lemma str_ltb_trans a b c :
  str_ltb a b = true → str_ltb b c = true → str_ltb a c = true.
Proof.
  rewrite !str_ltb_lt. apply (StrictOrder_Transitive (R := String_as_OT.lt)).
Qed.

Lemma str_ltb_asym a b : str_ltb a b = true → str_ltb b a = false.
Proof.
  intros Hab. apply not_true_is_false. intros Hba.
  pose proof (str_ltb_trans _ _ _ Hab Hba) as H.
  by rewrite str_ltb_irrefl in H.
Qed.

Lemma str_ltb_total a b : str_ltb a b = false → str_ltb b a = false → a = b.
Proof.
  intros Hab Hba. destruct (String_as_OT.compare_spec a b) as [H|H|H].
  - done.
  - apply str_ltb_lt in H. congruence.
  - apply str_ltb_lt in H. congruence.
Qed.

Lemma str_geb_trans a b c :
  str_ltb b a = false → str_ltb c b = false → str_ltb c a = false.
Proof.
  intros Hba Hcb. apply not_true_is_false. intros Hca.
  destruct (str_ltb a b) eqn:Hab.
  - pose proof (str_ltb_trans _ _ _ Hca Hab). congruence.
  - assert (a = b) by by apply str_ltb_total. subst. congruence.
Qed.

Lemma value_ltb_irrefl a : value_ltb a a = false.
Proof.
  destruct a; simpl; [apply num_ltb_irrefl|apply str_ltb_irrefl|done].
Qed.

Lemma value_ltb_asym a b : value_ltb a b = true → value_ltb b a = false.
Proof.
  destruct a, b; simpl; try done; [apply num_ltb_asym|apply str_ltb_asym].
Qed.

Lemma value_ltb_total a b :
  a ≠ VNaN → b ≠ VNaN →
  value_ltb a b = false → value_ltb b a = false → a = b.
Proof.
  destruct a, b; simpl; try done; intros _ _ H1 H2; f_equal.
  - by apply num_ltb_total.
  - by apply str_ltb_total.
Qed.

Lemma value_geb_trans a b c :
  a ≠ VNaN → b ≠ VNaN → c ≠ VNaN →
  value_ltb b a = false → value_ltb c b = false → value_ltb c a = false.
Proof.
  destruct a, b, c; simpl; try done; intros _ _ _.
  - apply num_geb_trans.
  - apply str_geb_trans.
Qed.

Lemma present_labels ls :
  List.Forall (λ v, v ≠ VNaN) (remove_dups (filter (λ v, v ≠ VNaN) ls)).
Proof.
  apply Forall_forall. intros v Hv%list_elem_of_In.
  rewrite elem_of_remove_dups, list_elem_of_filter in Hv. by destruct Hv.
Qed.

(** The categories are strictly increasing. *)
Lemma categories_sorted ls :
  StronglySorted (λ a b, value_ltb a b = true) (categories ls).
Proof.
  unfold categories.
  pose proof (stable_sort_sorted value_ltb (λ v, v ≠ VNaN)
                (λ a b _ _, value_ltb_asym a b) value_geb_trans
                _ (present_labels ls)) as Hs.
  pose proof (stable_sort_Forall value_ltb (λ v, v ≠ VNaN) _ (present_labels ls))
    as Hp.
  pose proof (stable_sort_NoDup value_ltb _
                (NoDup_remove_dups (filter (λ v, v ≠ VNaN) ls))) as Hnd.
  induction Hs as [|c l Hs IH Hc]; [constructor|].
  inversion Hnd as [|c' l' Hc' Hnd']; subst.
  apply Forall_cons_1 in Hp as [Hpc Hp].
  constructor; [by apply IH|].
  rewrite Forall_forall in Hc, Hp. apply Forall_forall. intros b Hb.
  destruct (value_ltb c b) eqn:Hcb; [done|]. exfalso.
  apply Hc'. rewrite (value_ltb_total c b Hpc (Hp b Hb) Hcb (Hc b Hb)).
  by apply list_elem_of_In.
Qed.

Lemma elem_of_categories s ls : s ∈ categories ls ↔ s ∈ ls ∧ s ≠ VNaN.
Proof.
  unfold categories. rewrite stable_sort_elem_of, elem_of_remove_dups.
  rewrite list_elem_of_filter. tauto.
Qed.

Lemma filter_nil_intro {A} (P : A → Prop) `{∀ x, Decision (P x)} (l : list A) :
  (∀ x, x ∈ l → ¬ P x) → filter P l = [].
Proof.
  induction l as [|x l IH]; intros Hl; [done|].
  rewrite filter_cons. destruct (decide (P x)) as [Hx|_].
  - destruct (Hl x); [left|done].
  - apply IH. intros y Hy. apply Hl. by right.
Qed.

(** In a strictly increasing list, the position of an element is the
    number of elements before it in the order. *)
Lemma index_of_sorted s l :
  StronglySorted (λ a b, value_ltb a b = true) l → s ∈ l →
  index_of s l = Some (length (filter (λ c, value_ltb c s = true) l)).
Proof.
  induction 1 as [|c l Hs IH Hc]; intros Hin; [by apply elem_of_nil in Hin|].
  simpl. rewrite filter_cons. rewrite Forall_forall in Hc.
  destruct (decide (c = s)) as [->|Hne].
  - rewrite value_ltb_irrefl.
    destruct (decide (false = true)) as [?|_]; [done|].
    f_equal. rewrite filter_nil_intro; [done|].
    intros b Hb%list_elem_of_In. rewrite (value_ltb_asym s b); [done|]. by apply Hc.
  - apply elem_of_cons in Hin as [->|Hin]; [done|].
    rewrite (Hc s) by by apply list_elem_of_In.
    destruct (decide (true = true)) as [_|?]; [|done].
    rewrite IH by done. done.
Qed.

Lemma index_of_lookup s l i : index_of s l = Some i → l !! i = Some s.
Proof.
  revert i. induction l as [|c l IH]; intros i; simpl; [done|].
  destruct (decide (c = s)) as [->|Hne].
  - by intros [= <-].
  - destruct (index_of s l) as [k|]; simpl; [|done].
    intros [= <-]. by apply IH.
Qed.

Lemma label_rank_index s ls :
  s ∈ ls → s ≠ VNaN → index_of s (categories ls) = Some (label_rank s ls).
Proof.
  intros Hs Hne. rewrite index_of_sorted.
  - unfold label_rank, categories. f_equal.
    by rewrite stable_sort_perm.
  - apply categories_sorted.
  - by apply elem_of_categories.
Qed.

Lemma label_rank_lt s t ls :
  s ∈ ls → t ∈ ls → s ≠ VNaN → t ≠ VNaN →
  (label_rank s ls < label_rank t ls)%nat ↔ value_ltb s t = true.
Proof.
  intros Hs Ht Hsn Htn.
  pose proof (index_of_lookup _ _ _ (label_rank_index s ls Hs Hsn)) as Hi.
  pose proof (index_of_lookup _ _ _ (label_rank_index t ls Ht Htn)) as Hj.
  pose proof (categories_sorted ls) as Hsorted.
  split.
  - intros Hlt. by eapply (StronglySorted_lookup _ _ _ _ _ _ Hsorted Hlt).
  - intros Hst.
    destruct (lt_eq_lt_dec (label_rank s ls) (label_rank t ls)) as [[H|H]|H].
    + done.
    + rewrite H in Hi. rewrite Hi in Hj. injection Hj as ->.
      by rewrite value_ltb_irrefl in Hst.
    + pose proof (StronglySorted_lookup _ _ _ _ _ _ Hsorted H Hj Hi) as Hts.
      simpl in Hts. by rewrite (value_ltb_asym _ _ Hst) in Hts.
Qed.

Lemma label_rank_inj s t ls :
  s ∈ ls → t ∈ ls → s ≠ VNaN → t ≠ VNaN →
  label_rank s ls = label_rank t ls ↔ s = t.
Proof.
  intros Hs Ht Hsn Htn. split; [|by intros ->].
  pose proof (index_of_lookup _ _ _ (label_rank_index s ls Hs Hsn)) as Hi.
  pose proof (index_of_lookup _ _ _ (label_rank_index t ls Ht Htn)) as Hj.
  intros H. rewrite H in Hi. rewrite Hi in Hj. by injection Hj.
Qed.

Lemma cat_code_present s ls :
  s ∈ ls → s ≠ VNaN → cat_code (categories ls) s = Z.of_nat (label_rank s ls).
Proof.
  intros Hs Hne. unfold cat_code. rewrite label_rank_index by done.
  by destruct s.
Qed.

Lemma cat_codes_encodes ls : encodes ls (cat_codes ls).
Proof.
  unfold encodes, cat_codes. split_and!.
  - by rewrite length_fmap.
  - intros i. rewrite list_lookup_fmap. split.
    + by intros ->.
    + destruct (ls !! i) as [s|] eqn:Hi; simpl; [|done].
      destruct (decide (s = VNaN)) as [->|Hne]; [done|].
      rewrite cat_code_present; [|by eapply list_elem_of_lookup_2|done].
      intros [= H]. lia.
  - intros i s Hi Hne. rewrite list_lookup_fmap, Hi. simpl.
    rewrite cat_code_present; [done| |done]. by eapply list_elem_of_lookup_2.
  - intros i j s t Hi Hj Hs Ht. split.
    + apply label_rank_lt; try done; by eapply list_elem_of_lookup_2.
    + apply label_rank_inj; try done; by eapply list_elem_of_lookup_2.
  - intros i j a b Hi Hj.
    apply (label_rank_lt (VStr a) (VStr b)); try done;
      by eapply list_elem_of_lookup_2.
Qed.

(** C9.  Whatever the dtype of the two category columns, a row whose
    [Zone] (resp. [Time_Slot]) is missing gets the code -1, and no other
    row does; a row whose value is present gets the rank of the value
    among the distinct values present, alphabetical for text: a
    non-negative integer that distinguishes and orders the values.  So -1
    is an encoding, and the non-negative codes are a bijection only on
    the values present. *)
Theorem label_encoding {np : Numpy} (df out : DataFrame) :
  add_engineered_features df = Ok out →
  ∃ zone slot,
    df !! "Zone" = Some zone ∧
    df !! "Time_Slot" = Some slot ∧
    out !! "zone_encoded" = Some (IntCol (cat_codes (cells zone))) ∧
    out !! "time_slot_encoded" = Some (IntCol (cat_codes (cells slot))) ∧
    encodes (cells zone) (cat_codes (cells zone)) ∧
    encodes (cells slot) (cat_codes (cells slot)).
Proof.
  intros Hout.
  apply add_engineered_features_Ok in Hout
    as (zone & slot & prepared & soldc & foots & preps & diffs & buss & passs
        & Hzone & Hslot & _ & _ & _ & _ & _ & _ & _ & Hout).
  simpl in Hout. exists zone, slot. split_and!; [done..| | | |].
  - subst out. rewrite lookup_insert_ne by done. apply lookup_insert_eq.
  - subst out. apply lookup_insert_eq.
  - apply cat_codes_encodes.
  - apply cat_codes_encodes.
Qed.

(** ** The input table is left alone *)

Module HeapFacts.
(* the functions on contents, before [Heap]'s names hide them *)
Local Abbreviation clean_contents := clean_dataframe.
Local Abbreviation add_features_contents := add_engineered_features.
Import Heap.

Section Frames.
Context {np : Numpy}.

Lemma bind_run {A B} (m : St A) (k : A → St B) h :
  (m ≫= k) h = match m h with
               | (Ok a, h') => k a h'
               | (Raise e, h') => (Raise e, h')
               end.
Proof. done. Qed.

Lemma writes_only_ret {A} l (a : A) : writes_only l (mret a : St A).
Proof. by intros h l' _. Qed.

Lemma writes_only_lift {A} l (r : result A) : writes_only l (lift r : St A).
Proof. by intros h l' _. Qed.

Lemma writes_only_bind {A B} l (m : St A) (k : A → St B) :
  writes_only l m → (∀ a, writes_only l (k a)) → writes_only l (m ≫= k).
Proof.
  intros Hm Hk h l' Hl'. rewrite bind_run. specialize (Hm h l' Hl').
  destruct (m h) as [[a|e] h1]; simpl in *.
  - by rewrite Hk.
  - done.
Qed.

Lemma writes_only_load l l0 col : writes_only l (load l0 col).
Proof. intros h l' _. unfold load. by destruct (h !! l0). Qed.

Lemma writes_only_has_column l l0 col : writes_only l (has_column l0 col).
Proof. intros h l' _. unfold has_column. by destruct (h !! l0). Qed.

Lemma writes_only_select_numeric l l0 : writes_only l (select_numeric l0).
Proof. intros h l' _. unfold select_numeric. by destruct (h !! l0). Qed.

Lemma writes_only_store_col l col c : writes_only l (store_col l col c).
Proof.
  intros h l' Hl'. unfold store_col. destruct (h !! l); simpl; [|done].
  by rewrite lookup_insert_ne.
Qed.

Lemma writes_only_for_each {A} l (xs : list A) (body : A → St unit) :
  (∀ x, writes_only l (body x)) → writes_only l (for_each xs body).
Proof.
  intros Hbody. induction xs as [|x xs IH]; simpl.
  - apply writes_only_ret.
  - apply writes_only_bind; [apply Hbody|]. intros _. apply IH.
Qed.

Lemma writes_only_load_float l l0 col : writes_only l (load_float l0 col).
Proof.
  apply writes_only_bind; [apply writes_only_load|].
  intros c. apply writes_only_lift.
Qed.

Create HintDb frame discriminated.
Hint Resolve writes_only_ret writes_only_lift writes_only_load
  writes_only_has_column writes_only_select_numeric writes_only_store_col
  writes_only_load_float : frame.

Ltac frame :=
  repeat first
    [ apply writes_only_bind; [|intros ?]
    | apply writes_only_for_each; intros ?
    | match goal with
      | |- writes_only _ (match ?c with _ => _ end) => destruct c
      | |- writes_only _ (if ?b then _ else _) => destruct b
      end
    | solve [auto with frame] ].

(** A function that starts by copying its argument and then works on the
    copy leaves every object of the old store as it was. *)
Lemma copy_then_frame {A} (df : loc) (k : loc → St A) h l :
  (∀ l0, writes_only l0 (k l0)) →
  l ≠ fresh (dom h) →
  ((copy df ≫= k) h).2 !! l = h !! l.
Proof.
  intros Hk Hl. rewrite bind_run. unfold copy.
  destruct (h !! df) as [d|]; simpl; [|done].
  rewrite (Hk (fresh (dom h))) by done. by rewrite lookup_insert_ne.
Qed.

Lemma clean_dataframe_frame parse df h l :
  l ≠ fresh (dom h) → (clean_dataframe parse df h).2 !! l = h !! l.
Proof.
  intros Hl. unfold clean_dataframe. apply copy_then_frame; [|done].
  intros l0. frame.
Qed.

Lemma add_engineered_features_frame df h l :
  l ≠ fresh (dom h) → (add_engineered_features df h).2 !! l = h !! l.
Proof.
  intros Hl. unfold add_engineered_features. apply copy_then_frame; [|done].
  intros l0. frame.
Qed.

(** *** The copy ends up holding what the function on contents computes *)

Lemma load_at l col h d :
  h !! l = Some d → load l col h = (getitem d col, h).
Proof. intros H. unfold load. by rewrite H. Qed.

Lemma store_col_at l col c h d :
  h !! l = Some d → store_col l col c h = (Ok (), <[l := <[col := c]> d]> h).
Proof. intros H. unfold store_col. by rewrite H. Qed.

Lemma has_column_at l col h d :
  h !! l = Some d →
  has_column l col h = (Ok (bool_decide (is_Some (d !! col))), h).
Proof. intros H. unfold has_column. by rewrite H. Qed.

Lemma select_numeric_at l h d :
  h !! l = Some d →
  select_numeric l h
  = (Ok ((filter (λ kc, is_numeric kc.2) (map_to_list d)).*1), h).
Proof. intros H. unfold select_numeric. by rewrite H. Qed.

Lemma load_float_at l col h d xs :
  h !! l = Some d → getitem d col ≫= as_float = Ok xs →
  load_float l col h = (Ok xs, h).
Proof.
  intros H Hxs. unfold load_float. rewrite bind_run, (load_at _ _ _ _ H).
  apply rbind_Ok in Hxs as (c & -> & Hxs). by rewrite <- Hxs.
Qed.

Lemma alter_lookup_Some {A} (f : A → A) (m : gmap string A) k x :
  m !! k = Some x → alter f k m = <[k := f x]> m.
Proof.
  intros Hk. apply map_eq. intros j. destruct (decide (k = j)) as [<-|Hne].
  - by rewrite lookup_alter_eq, lookup_insert_eq, Hk.
  - by rewrite lookup_alter_ne, lookup_insert_ne.
Qed.

Lemma fill_if_null_at l col h (d : gmap string column) :
  is_Some (d !! col) →
  fill_if_null l col (<[l := d]> h) = (Ok (), <[l := alter fill_median col d]> h).
Proof.
  intros [c Hc]. unfold fill_if_null.
  rewrite bind_run, (load_at _ _ _ d) by apply lookup_insert_eq.
  unfold getitem. rewrite Hc. rewrite (alter_lookup_Some _ _ _ _ Hc).
  assert (Hsame : fill_median c = c →
            (mret () : St unit) (<[l := d]> h)
            = (Ok (), <[l := <[col := fill_median c]> d]> h)).
  { intros ->. by rewrite (insert_id d col c). }
  destruct c as [zs|xs|vs]; try (by apply Hsame).
  simpl. destruct (has_nan xs) eqn:Hnan.
  - rewrite (store_col_at _ _ _ _ d) by apply lookup_insert_eq.
    by rewrite insert_insert_eq.
  - by rewrite (insert_id d col (FloatCol xs)).
Qed.

Lemma for_each_fill l ks h (d : gmap string column) :
  (∀ k, k ∈ ks → is_Some (d !! k)) →
  for_each ks (fill_if_null l) (<[l := d]> h)
  = (Ok (), <[l := foldl (λ d k, alter fill_median k d) d ks]> h).
Proof.
  revert d. induction ks as [|k ks IH]; intros d Hks; simpl; [done|].
  rewrite bind_run, fill_if_null_at by (apply Hks; left).
  apply IH. intros k' Hk'. rewrite lookup_alter_is_Some. apply Hks. by right.
Qed.

Lemma lookup_foldl_fill ks (d : gmap string column) k :
  foldl (λ d k, alter fill_median k d) d ks !! k
  = if decide (k ∈ ks) then fill_median <$> d !! k else d !! k.
Proof.
  revert d. induction ks as [|a ks IH]; intros d; simpl.
  - destruct (decide (k ∈ [])) as [H|_]; [by apply elem_of_nil in H|done].
  - rewrite IH. destruct (decide (a = k)) as [->|Hne].
    + rewrite lookup_alter_eq.
      destruct (decide (k ∈ k :: ks)) as [_|H]; [|by destruct H; left].
      destruct (decide (k ∈ ks)); [|done].
      destruct (d !! k) as [c|]; simpl; [|done]. by rewrite fill_median_idemp.
    + rewrite lookup_alter_ne by done.
      destruct (decide (k ∈ ks)) as [H|H], (decide (k ∈ a :: ks)) as [H'|H'];
        try done.
      * destruct H'. by right.
      * apply elem_of_cons in H' as [->|H']; done.
Qed.

Lemma foldl_fill_numeric (d : gmap string column) :
  foldl (λ d k, alter fill_median k d) d
        ((filter (λ kc, is_numeric kc.2) (map_to_list d)).*1)
  = fill_numeric_nulls d.
Proof.
  apply map_eq. intros k. rewrite lookup_foldl_fill.
  unfold fill_numeric_nulls. rewrite lookup_fmap.
  destruct (decide (k ∈ _)) as [_|Hk]; [done|].
  destruct (d !! k) as [c|] eqn:Hc; simpl; [|done].
  destruct c as [zs|xs|vs]; simpl; try done.
  destruct Hk. apply list_elem_of_fmap. exists (k, FloatCol xs).
  split; [done|]. apply list_elem_of_filter. split; [done|].
  by apply elem_of_map_to_list.
Qed.

Lemma numeric_columns_present (d : gmap string column) k :
  k ∈ (filter (λ kc, is_numeric kc.2) (map_to_list d)).*1 → is_Some (d !! k).
Proof.
  intros ([k' c] & -> & Hkc)%list_elem_of_fmap.
  apply list_elem_of_filter in Hkc as [_ Hkc]. exists c.
  by apply elem_of_map_to_list.
Qed.

(** On a table the cleaner accepts, the call allocates one new object
    and leaves in it the table [clean_dataframe] computes. *)
Lemma clean_dataframe_run parse df h d d' :
  h !! df = Some d →
  clean_contents parse d = Ok d' →
  clean_dataframe parse df h
  = (Ok (fresh (dom h)), <[fresh (dom h) := d']> h).
Proof.
  intros Hdf Hclean. set (l := fresh (dom h)).
  apply clean_dataframe_Ok in Hclean as (s & zs & Hs & Hzs & Hclean).
  simpl in Hclean.
  unfold clean_dataframe. rewrite bind_run. unfold copy. rewrite Hdf.
  fold l. cbv zeta.
  rewrite bind_run, (load_at _ _ _ d) by apply lookup_insert_eq.
  unfold getitem at 1. rewrite Hs.
  rewrite bind_run, (store_col_at _ _ _ _ d) by apply lookup_insert_eq.
  rewrite insert_insert_eq.
  rewrite bind_run, (load_at _ _ _ _ (lookup_insert_eq _ _ _)).
  rewrite getitem_insert_eq.
  rewrite bind_run. unfold lift at 1. rewrite security_cast, Hzs.
  cbn [fmap result_fmap].
  rewrite bind_run, (store_col_at _ _ _ _ _ (lookup_insert_eq _ _ _)).
  rewrite !insert_insert_eq.
  set (d1 := <["Security_Incidents" := IntCol zs]> d) in *.
  rewrite bind_run, (select_numeric_at _ _ _ (lookup_insert_eq _ _ _)).
  rewrite bind_run.
  change (for_each ?ks _) with (for_each ks (fill_if_null l)).
  rewrite for_each_fill by apply numeric_columns_present.
  rewrite foldl_fill_numeric.
  rewrite bind_run, (has_column_at _ _ _ _ (lookup_insert_eq _ _ _)).
  rewrite bind_run.
  destruct (fill_numeric_nulls d1 !! "Avg_Delay_Min") as [c|] eqn:Hc.
  - destruct Hclean as (c' & Hc' & ->).
    rewrite bool_decide_true by by eexists.
    rewrite bind_run, (load_at _ _ _ _ (lookup_insert_eq _ _ _)).
    unfold getitem. rewrite Hc.
    rewrite bind_run. unfold lift at 1. rewrite Hc'.
    rewrite (store_col_at _ _ _ _ _ (lookup_insert_eq _ _ _)).
    by rewrite insert_insert_eq.
  - subst d'. rewrite bool_decide_false; [done|].
    intros [c Hc']. discriminate Hc'.
Qed.

Lemma add_engineered_features_run df h d d' :
  h !! df = Some d →
  add_features_contents d = Ok d' →
  add_engineered_features df h
  = (Ok (fresh (dom h)), <[fresh (dom h) := d']> h).
Proof.
  intros Hdf Hadd. set (l := fresh (dom h)).
  apply add_engineered_features_Ok in Hadd
    as (zone & slot & prepared & sold & foot & prep & diff & bus & pass
        & Hzone & Hslot & Hprepared & Hsold & Hfoot & Hprep & Hdiff
        & Hbus & Hpass & ->).
  unfold add_engineered_features. rewrite bind_run. unfold copy. rewrite Hdf.
  fold l. cbv zeta.
  rewrite bind_run, (load_at _ _ _ d) by apply lookup_insert_eq.
  unfold getitem at 1. rewrite Hzone.
  rewrite bind_run. unfold lift at 1. rewrite zone_capacity_column.
  rewrite bind_run, (store_col_at _ _ _ _ d) by apply lookup_insert_eq.
  rewrite insert_insert_eq.
  rewrite bind_run.
  erewrite load_float_at;
    [|apply lookup_insert_eq|by rewrite getitem_insert_eq].
  rewrite bind_run.
  erewrite load_float_at;
    [|apply lookup_insert_eq|by rewrite !getitem_insert_ne].
  rewrite bind_run, (store_col_at _ _ _ _ _ (lookup_insert_eq _ _ _)).
  rewrite insert_insert_eq.
  rewrite bind_run, (load_at _ _ _ _ (lookup_insert_eq _ _ _)).
  rewrite !getitem_insert_ne by done. unfold getitem at 1. rewrite Hprepared.
  rewrite bind_run. unfold lift at 1. rewrite Hprep.
  rewrite bind_run, (load_at _ _ _ _ (lookup_insert_eq _ _ _)).
  rewrite !getitem_insert_ne by done. unfold getitem at 1. rewrite Hsold.
  rewrite bind_run. unfold lift at 1. rewrite Hdiff.
  rewrite bind_run, (store_col_at _ _ _ _ _ (lookup_insert_eq _ _ _)).
  rewrite insert_insert_eq.
  rewrite bind_run.
  erewrite load_float_at;
    [|apply lookup_insert_eq|by rewrite !getitem_insert_ne].
  rewrite bind_run.
  erewrite load_float_at;
    [|apply lookup_insert_eq|by rewrite !getitem_insert_ne].
  rewrite bind_run, (store_col_at _ _ _ _ _ (lookup_insert_eq _ _ _)).
  rewrite insert_insert_eq.
  rewrite bind_run, (load_at _ _ _ _ (lookup_insert_eq _ _ _)).
  rewrite !getitem_insert_ne by done. unfold getitem at 1. rewrite Hzone.
  rewrite bind_run, (store_col_at _ _ _ _ _ (lookup_insert_eq _ _ _)).
  rewrite insert_insert_eq.
  rewrite bind_run, (load_at _ _ _ _ (lookup_insert_eq _ _ _)).
  rewrite !getitem_insert_ne by done. unfold getitem at 1. rewrite Hslot.
  rewrite bind_run, (store_col_at _ _ _ _ _ (lookup_insert_eq _ _ _)).
  by rewrite insert_insert_eq.
Qed.
End Frames.

Lemma allocated_not_fresh (h : store) l : is_Some (h !! l) → l ≠ fresh (dom h).
Proof.
  intros Hl%elem_of_dom ->. by apply (is_fresh (dom h)).
Qed.
End HeapFacts.

(** C10. Neither function modifies its input table: each works on a
    copy, so after the call (whether it returns or raises) the object
    [df] refers to holds the same columns and values as before. *)
Theorem inputs_not_modified {np : Numpy} parse (df : Heap.loc) (h : Heap.store) :
  (Heap.clean_dataframe parse df h).2 !! df = h !! df ∧
  (Heap.add_engineered_features df h).2 !! df = h !! df.
Proof.
  destruct (h !! df) as [d|] eqn:Hdf.
  - rewrite <- Hdf. split.
    + apply HeapFacts.clean_dataframe_frame, HeapFacts.allocated_not_fresh.
      by rewrite Hdf.
    + apply HeapFacts.add_engineered_features_frame, HeapFacts.allocated_not_fresh.
      by rewrite Hdf.
  - unfold Heap.clean_dataframe, Heap.add_engineered_features.
    rewrite !HeapFacts.bind_run. unfold Heap.copy. by rewrite Hdf.
Qed.

(** ** The congestion summary *)

Lemma length_filter_fmap {A B} (f : A → B) (P : B → Prop) `{∀ y, Decision (P y)}
    (l : list A) :
  length (filter P (f <$> l)) = length (filter (λ x, P (f x)) l).
Proof.
  induction l as [|x l IH]; [done|]. csimpl. rewrite !filter_cons.
  destruct (decide (P (f x))); simpl; by rewrite IH.
Qed.

Lemma omap_filter_seq_S {A} (f : nat → option A) (P : nat → Prop)
    `{∀ i, Decision (P i)} a n :
  omap f (filter P (seq (S a) n))
  = omap (λ i, f (S i)) (filter (λ i, P (S i)) (seq a n)).
Proof.
  revert a. induction n as [|n IH]; intros a; [done|].
  simpl. rewrite !filter_cons.
  destruct (decide (P (S a))); simpl; by rewrite IH.
Qed.

(** The cells of the rows that carry a key, by row number. *)
Lemma filter_zip_rows {K A} `{EqDecision K} (ks : list K) (xs : list A) (k : K) :
  (filter (λ kx, kx.1 = k) (zip ks xs)).*2
  = omap (λ i, xs !! i) (filter (λ i, ks !! i = Some k) (seq 0 (length xs))).
Proof.
  revert ks. induction xs as [|x xs IH]; intros ks.
  - by destruct ks.
  - destruct ks as [|k0 ks].
    + simpl. rewrite filter_nil_intro; [done|]. by intros i _.
    + change (seq 0 (length (x :: xs))) with (0%nat :: seq 1 (length xs)).
      change (zip (k0 :: ks) (x :: xs)) with ((k0, x) :: zip ks xs).
      rewrite !filter_cons. cbn [fst lookup list_lookup].
      destruct (decide (k0 = k)) as [->|Hne].
      * destruct (decide (Some k = Some k)) as [_|?]; [|done].
        cbn [fmap list_fmap snd omap list_omap lookup list_lookup].
        rewrite omap_filter_seq_S. f_equal. apply IH.
      * destruct (decide (Some k0 = Some k)) as [[= ?]|_]; [done|].
        rewrite omap_filter_seq_S. apply IH.
Qed.

Lemma group_key_Some z t k :
  group_key z t = Some k ↔ k = (z, t) ∧ z ≠ VNaN ∧ t ≠ VNaN.
Proof.
  destruct z, t; simpl; split; try (by intros [= <-]); try (by intros (-> & ? & ?)).
Qed.

Lemma group_values_cells zs ts xs z t :
  z ≠ VNaN → t ≠ VNaN →
  group_values (zip_with group_key zs ts) xs (z, t) = group_cells zs ts xs z t.
Proof.
  intros Hz Ht. unfold group_values, group_cells.
  rewrite (filter_zip_rows _ xs (Some (z, t))). f_equal.
  apply list_filter_iff. intros i. rewrite lookup_zip_with. split.
  - intros H. destruct (zs !! i) as [z'|]; [|done]. simpl in H.
    destruct (ts !! i) as [t'|]; [|done]. simpl in H.
    injection H as H. apply group_key_Some in H as ([= -> ->] & _). done.
  - intros [-> ->]. simpl. f_equal. apply group_key_Some. done.
Qed.

Section CongestionFacts.
Context {np : Numpy}.

(** The groups are the pairs of a zone and a time slot that some row
    holds, both present. *)
Lemma elem_of_group_keys (zs ts : list value) k :
  k ∈ group_keys (zip_with group_key zs ts) ↔
  ∃ i, zs !! i = Some k.1 ∧ ts !! i = Some k.2 ∧ k.1 ≠ VNaN ∧ k.2 ≠ VNaN.
Proof.
  unfold group_keys. rewrite stable_sort_elem_of, elem_of_remove_dups.
  rewrite list_elem_of_omap. split.
  - intros (o & Ho & Hk). simpl in Hk. subst o.
    apply list_elem_of_lookup in Ho as [i Hi].
    apply lookup_zip_with_Some in Hi as (z & t & Hzt & Hz & Ht).
    exists i. destruct z, t; simplify_eq/=; done.
  - intros (i & Hz & Ht & Hzn & Htn). exists (Some k). split; [|done].
    apply (list_elem_of_lookup_2 _ i). rewrite lookup_zip_with, Hz. simpl.
    rewrite Ht. simpl. destruct k as [z t]. simpl in *. by destruct z, t.
Qed.

Lemma group_keys_NoDup ks : NoDup (group_keys ks).
Proof. apply stable_sort_NoDup, NoDup_remove_dups. Qed.

(** The heat map has one row per group, with the rounded mean of the
    group. *)
Lemma get_congestion_heatmap_Ok (df : DataFrame) hm :
  get_congestion_heatmap df = Ok hm →
  ∃ zone_col slot_col xs,
    df !! "Zone" = Some zone_col ∧ df !! "Time_Slot" = Some slot_col ∧
    getitem df "congestion_index" ≫= as_float = Ok xs ∧
    let ks := zip_with group_key (cells zone_col) (cells slot_col) in
    hm = (λ k, {| zone := round_key zone_col k.1;
                  time_slot := round_key slot_col k.2;
                  congestion_index :=
                    np_round 3 (nanmean (group_values ks xs k)) |})
         <$> group_keys ks.
Proof.
  unfold get_congestion_heatmap. intros H.
  apply rbind_Ok in H as (zone_col & Hz%getitem_Ok & H).
  apply rbind_Ok in H as (slot_col & Ht%getitem_Ok & H).
  apply rbind_Ok in H as (xs & Hxs & [= <-]).
  by exists zone_col, slot_col, xs.
Qed.

(** The bottlenecks are the rows of the heat map at or above the
    threshold, and the summary counts them. *)
Lemma bottleneck_count_bottlenecks (df : DataFrame) s :
  get_congestion_summary df = Ok s →
  ∃ rows, get_bottlenecks df BOTTLENECK_THRESHOLD = Ok rows ∧
          bottleneck_count s = length rows.
Proof.
  unfold get_congestion_summary, get_bottlenecks. intros H.
  apply rbind_Ok in H as (hm & -> & H). simpl.
  destruct hm as [|r hm]; [done|].
  destruct (idxmax (r :: hm)); [|done]. injection H as <-. by eexists.
Qed.

(** C1.  Whenever the summary is returned, its bottleneck count is the
    number of zone x time-slot groups whose mean congestion index, rounded
    to 3 decimals, is at least 0.85: the count [groups_rounded_at_or_above]
    computes, and the length of a list without repetition that holds
    exactly these groups. *)
Theorem bottleneck_count_rounded (df : DataFrame) s :
  get_congestion_summary df = Ok s →
  groups_rounded_at_or_above BOTTLENECK_THRESHOLD df = Ok (bottleneck_count s) ∧
  ∃ groups, NoDup groups ∧
            (∀ z t, (z, t) ∈ groups ↔ bottleneck_group df z t) ∧
            bottleneck_count s = length groups.
Proof.
  unfold get_congestion_summary. intros H.
  apply rbind_Ok in H as (hm & Hhm & H).
  apply get_congestion_heatmap_Ok in Hhm
    as (zone_col & slot_col & xs & Hz & Ht & Hxs & Hhm). simpl in Hhm.
  set (ks := zip_with group_key (cells zone_col) (cells slot_col)) in *.
  set (test := λ k : value * value,
         fge (np_round 3 (nanmean (group_values ks xs k))) BOTTLENECK_THRESHOLD
         = true).
  assert (Hcount : bottleneck_count s
                   = length (filter test (remove_dups (omap id ks)))).
  { assert (Hs : ∀ n, bottleneck_count s = n →
              n = length (filter (λ row, fge (congestion_index row)
                                             BOTTLENECK_THRESHOLD = true) hm)).
    { intros n <-. destruct hm as [|r hm']; [done|].
      destruct (idxmax (r :: hm')); [|done]. by injection H as <-. }
    rewrite (Hs _ eq_refl), Hhm, length_filter_fmap. simpl.
    unfold group_keys. by rewrite stable_sort_perm. }
  split.
  - unfold groups_rounded_at_or_above, count_groups.
    rewrite (proj2 (getitem_Ok _ _ _) Hz), (proj2 (getitem_Ok _ _ _) Ht). simpl.
    rewrite Hxs. simpl. by rewrite Hcount.
  - exists (filter test (remove_dups (omap id ks))). split_and!; [|.. |done].
    + apply list.NoDup_filter, NoDup_remove_dups.
    + intros z t. rewrite list_elem_of_filter, elem_of_remove_dups.
      rewrite list_elem_of_omap. unfold bottleneck_group. split.
      * intros (Htest & o & Ho & Hk). simpl in Hk. subst o.
        apply list_elem_of_lookup in Ho as [i Hi]. unfold ks in Hi.
        apply lookup_zip_with_Some in Hi as (z' & t' & Hzt & Hz' & Ht').
        symmetry in Hzt. apply group_key_Some in Hzt as ([= -> ->] & Hzn & Htn).
        exists zone_col, slot_col, xs. split_and!; try done; [by exists i|].
        rewrite <- group_values_cells by done. exact Htest.
      * intros (zc & sc & xs' & Hz' & Ht' & Hxs' & Hzn & Htn & [i [Hi Hj]] & Htest).
        rewrite Hz in Hz'. rewrite Ht in Ht'. rewrite Hxs in Hxs'. simplify_eq.
        split.
        -- unfold test, ks. rewrite group_values_cells by done. exact Htest.
        -- exists (Some (z, t)). split; [|done].
           apply (list_elem_of_lookup_2 _ i). unfold ks.
           rewrite lookup_zip_with, Hi. simpl. rewrite Hj. simpl.
           f_equal. by apply group_key_Some.
Qed.
End CongestionFacts.

(** Of these five groups, two have a rounded mean of at least 0.85, and
    the count is 2. *)
Example bottleneck_count_two_of_five :
  bottleneck_count <$> get_congestion_summary (np := ideal) five_groups
    = Ok 2%nat ∧
  groups_rounded_at_or_above (np := ideal) BOTTLENECK_THRESHOLD five_groups
    = Ok 2%nat ∧
  length <$> get_congestion_heatmap (np := ideal) five_groups = Ok 5%nat.
Proof. split_and!; by vm_compute. Qed.

(** ** Rationals *)

Lemma Qc_this_mult (a b : Qc) : (this (a * b)%Qc == this a * this b)%Q.
Proof. apply Qred_correct. Qed.

Lemma Qc_this_plus (a b : Qc) : (this (a + b)%Qc == this a + this b)%Q.
Proof. apply Qred_correct. Qed.

Lemma Qc_this_opp (a : Qc) : (this (- a)%Qc == - this a)%Q.
Proof. apply Qred_correct. Qed.

Lemma Qc_this_minus (a b : Qc) : (this (a - b)%Qc == this a - this b)%Q.
Proof. unfold Qcminus. by rewrite Qc_this_plus, Qc_this_opp. Qed.

Lemma Qc_this_inv (a : Qc) : (this (/ a)%Qc == / this a)%Q.
Proof. apply Qred_correct. Qed.

Lemma Qc_this_div (a b : Qc) : (this (a / b)%Qc == this a / this b)%Q.
Proof. unfold Qcdiv. by rewrite Qc_this_mult, Qc_this_inv. Qed.

Lemma Qc_this_Q2Qc (q : Q) : (this (Q2Qc q) == q)%Q.
Proof. apply Qred_correct. Qed.

Lemma inject_Z_le (a b : Z) : (a ≤ b)%Z → (inject_Z a <= inject_Z b)%Q.
Proof. by rewrite <- Zle_Qle. Qed.

Lemma inject_Z_pred (k : Z) : (inject_Z (k - 1) == inject_Z k - 1)%Q.
Proof. unfold Z.sub. by rewrite inject_Z_plus. Qed.

(** ** The model cache *)

Section ModelFacts.
Context {Model : Type}.
Context (permutation : Z → nat → list nat).
Context (fit_linear_regression : matrix → list (option number) → result Model).
Context (fit_random_forest :
           nat → nat → Z → matrix → list (option number) → result Model).
Context (predict : Model → matrix → result (list Qc)).
Context (r2_score mean_absolute_error :
           list (option number) → list Qc → result (option Qc)).

Local Abbreviation food_model :=
  (get_food_demand_model permutation fit_linear_regression predict
     r2_score mean_absolute_error).
Local Abbreviation satisfaction_model :=
  (get_satisfaction_model permutation fit_random_forest predict
     r2_score mean_absolute_error).
Local Abbreviation train_with :=
  (train permutation predict r2_score mean_absolute_error).

(** The two getters, run on a state. *)
Lemma get_food_demand_model_run df (st : caches Model) :
  food_model df st =
  match _food_model_cache st with
  | Some b => (Ok b, st)
  | None =>
      match train_with fit_linear_regression food_features "Orders" df with
      | Ok b => (Ok b, {| _food_model_cache := Some b;
                          _satisfaction_model_cache :=
                            _satisfaction_model_cache st |})
      | Raise e => (Raise e, st)
      end
  end.
Proof.
  unfold get_food_demand_model, gets, lift, modify.
  unfold mbind, State_bind, mret, State_ret.
  destruct (_food_model_cache st); [done|].
  by destruct (train _ _ _ _ _ _ _ _).
Qed.

Lemma get_satisfaction_model_run df (st : caches Model) :
  satisfaction_model df st =
  match _satisfaction_model_cache st with
  | Some b => (Ok b, st)
  | None =>
      match train_with (fit_random_forest 150%nat 12%nat RANDOM_STATE)
              satisfaction_features "Satisfaction" df with
      | Ok b => (Ok b, {| _food_model_cache := _food_model_cache st;
                          _satisfaction_model_cache := Some b |})
      | Raise e => (Raise e, st)
      end
  end.
Proof.
  unfold get_satisfaction_model, gets, lift, modify.
  unfold mbind, State_bind, mret, State_ret.
  destruct (_satisfaction_model_cache st); [done|].
  by destruct (train _ _ _ _ _ _ _ _).
Qed.

(** A successful call leaves its bundle in its cache and the other
    cache as it was. *)
Lemma get_food_demand_model_Ok df (st st' : caches Model) b :
  food_model df st = (Ok b, st') →
  _food_model_cache st' = Some b ∧
  _satisfaction_model_cache st' = _satisfaction_model_cache st.
Proof.
  rewrite get_food_demand_model_run.
  destruct (_food_model_cache st) as [b0|] eqn:Hc.
  - intros [= <- <-]. done.
  - destruct (train _ _ _ _ _ _ _ _); intros [= <- <-]. done.
Qed.

Lemma get_satisfaction_model_Ok df (st st' : caches Model) b :
  satisfaction_model df st = (Ok b, st') →
  _satisfaction_model_cache st' = Some b ∧
  _food_model_cache st' = _food_model_cache st.
Proof.
  rewrite get_satisfaction_model_run.
  destruct (_satisfaction_model_cache st) as [b0|] eqn:Hc.
  - intros [= <- <-]. done.
  - destruct (train _ _ _ _ _ _ _ _); intros [= <- <-]. done.
Qed.

(** With a bundle in the cache, the getter returns it and touches
    nothing: the table is not read and nothing is trained. *)
Lemma get_food_demand_model_cached df (st : caches Model) b :
  _food_model_cache st = Some b → food_model df st = (Ok b, st).
Proof. intros H. by rewrite get_food_demand_model_run, H. Qed.

Lemma get_satisfaction_model_cached df (st : caches Model) b :
  _satisfaction_model_cache st = Some b → satisfaction_model df st = (Ok b, st).
Proof. intros H. by rewrite get_satisfaction_model_run, H. Qed.

(** Neither getter ever empties or replaces a cache that is filled. *)
Lemma get_food_demand_model_keeps df (st : caches Model) :
  _satisfaction_model_cache (food_model df st).2 = _satisfaction_model_cache st ∧
  (∀ b, _food_model_cache st = Some b →
        _food_model_cache (food_model df st).2 = Some b).
Proof.
  rewrite get_food_demand_model_run.
  destruct (_food_model_cache st) as [b0|] eqn:Hc; simpl.
  - split; [done|]. by intros b [= <-].
  - destruct (train _ _ _ _ _ _ _ _); simpl; (split; [done|]);
      intros b Hb; discriminate Hb.
Qed.

Lemma get_satisfaction_model_keeps df (st : caches Model) :
  _food_model_cache (satisfaction_model df st).2 = _food_model_cache st ∧
  (∀ b, _satisfaction_model_cache st = Some b →
        _satisfaction_model_cache (satisfaction_model df st).2 = Some b).
Proof.
  rewrite get_satisfaction_model_run.
  destruct (_satisfaction_model_cache st) as [b0|] eqn:Hc; simpl.
  - split; [done|]. by intros b [= <-].
  - destruct (train _ _ _ _ _ _ _ _); simpl; (split; [done|]);
      intros b Hb; discriminate Hb.
Qed.

(** *** Training failures *)

Lemma select_cons (df : DataFrame) c cols :
  select df (c :: cols) =
  match df !! c with
  | Some col =>
      match select df cols with
      | Ok X => Ok ((c, col) :: X)
      | Raise e => Raise e
      end
  | None => Raise (KeyError c)
  end.
Proof.
  unfold select. cbn. unfold getitem. destruct (df !! c); cbn; [|done].
  by destruct (mapM _ cols).
Qed.

Lemma select_missing (df : DataFrame) cols c :
  c ∈ cols → df !! c = None → ∃ e, select df cols = Raise e.
Proof.
  intros Hc Hdf.
  induction cols as [|c' cols IH]; [by apply elem_of_nil in Hc|].
  rewrite select_cons.
  destruct (df !! c') as [col|] eqn:Hc'; [|by eexists].
  apply elem_of_cons in Hc as [->|Hc]; [congruence|].
  destruct (IH Hc) as [e ->]. by eexists.
Qed.

Lemma select_first (df : DataFrame) c cols X :
  select df (c :: cols) = Ok X →
  ∃ col, df !! c = Some col ∧ n_rows X = col_length col.
Proof.
  rewrite select_cons.
  destruct (df !! c) as [col|]; [|done].
  destruct (select df cols); [|done].
  intros [= <-]. by exists col.
Qed.

(** A split of fewer than two rows has no training row. *)
Lemma n_train_of_small n : (n < 2)%nat → n_train_of n = O.
Proof.
  intros Hn. destruct n as [|[|n]]; [by vm_compute..|lia].
Qed.

Lemma train_fails fit (df : DataFrame) c cols target :
  (∃ c', c' ∈ (c :: cols ++ [target])%list ∧ df !! c' = None) ∨
  (∀ c' col, df !! c' = Some col → (col_length col < 2)%nat) →
  ∃ e, train_with fit (c :: cols) target df = Raise e.
Proof.
  intros Hbad. unfold train.
  destruct (select df (c :: cols)) as [X|e] eqn:HX; [|by eexists].
  cbn. unfold getitem.
  destruct (df !! target) as [y|] eqn:Hy; [|by eexists].
  cbn. destruct Hbad as [(c' & Hc' & Hmiss)|Hsmall].
  - exfalso. rewrite app_comm_cons in Hc'.
    apply elem_of_app in Hc' as [Hc'|Hc'].
    + destruct (select_missing df _ _ Hc' Hmiss) as [e He]. congruence.
    + apply list_elem_of_singleton in Hc' as ->. congruence.
  - destruct (select_first _ _ _ _ HX) as (col & Hcol & Hn).
    unfold _split. rewrite Hn.
    rewrite (n_train_of_small (col_length col)) by by eapply Hsmall.
    by eexists.
Qed.
End ModelFacts.

(** C3. For each getter: once a call has returned a bundle, every later
    call in the same process returns that same bundle (model handle,
    feature list, held-out split, R² and MAE) and leaves the state as it
    is, whatever table it is given; nothing is trained again, since the
    result does not depend on the estimators either.  A call to the other
    getter in between does not change this. *)
Theorem model_cache_hit {Model : Type}
    permutation fit_linear_regression fit_random_forest predict
    r2_score mean_absolute_error
    (df1 : DataFrame) (st st' : caches Model) (b : bundle Model) :
  (get_food_demand_model permutation fit_linear_regression predict
     r2_score mean_absolute_error df1 st = (Ok b, st') →
   ∀ permutation' fit' fit_rf' predict' r2' mae' (df2 df3 : DataFrame),
     get_food_demand_model permutation' fit' predict' r2' mae' df2 st'
     = (Ok b, st') ∧
     let st'' := (get_satisfaction_model permutation' fit_rf' predict' r2' mae'
                    df3 st').2 in
     get_food_demand_model permutation' fit' predict' r2' mae' df2 st''
     = (Ok b, st'')) ∧
  (get_satisfaction_model permutation fit_random_forest predict
     r2_score mean_absolute_error df1 st = (Ok b, st') →
   ∀ permutation' fit' fit_rf' predict' r2' mae' (df2 df3 : DataFrame),
     get_satisfaction_model permutation' fit_rf' predict' r2' mae' df2 st'
     = (Ok b, st') ∧
     let st'' := (get_food_demand_model permutation' fit' predict' r2' mae'
                    df3 st').2 in
     get_satisfaction_model permutation' fit_rf' predict' r2' mae' df2 st''
     = (Ok b, st'')).
Proof.
  split.
  - intros Hfirst%get_food_demand_model_Ok. destruct Hfirst as [Hb _].
    intros. split.
    + by apply get_food_demand_model_cached.
    + apply get_food_demand_model_cached.
      pose proof (get_satisfaction_model_keeps permutation' fit_rf' predict'
                    r2' mae' df3 st') as [Hkeep _].
      by rewrite Hkeep.
  - intros Hfirst%get_satisfaction_model_Ok. destruct Hfirst as [Hb _].
    intros. split.
    + by apply get_satisfaction_model_cached.
    + apply get_satisfaction_model_cached.
      pose proof (get_food_demand_model_keeps permutation' fit' predict'
                    r2' mae' df3 st') as [Hkeep _].
      by rewrite Hkeep.
Qed.

(** C7. With an empty cache, a table that lacks one of the feature
    columns or the target column, or that has fewer than the two rows a
    20% split needs, makes the getter raise: the error comes out of the
    call, no bundle is returned and the cache stays empty. *)
Theorem training_errors_propagate {Model : Type}
    permutation fit_linear_regression fit_random_forest predict
    r2_score mean_absolute_error
    (df : DataFrame) (st : caches Model) :
  (_food_model_cache st = None →
   (∃ c, c ∈ (food_features ++ ["Orders"])%list ∧ df !! c = None) ∨
   (∀ c col, df !! c = Some col → (col_length col < 2)%nat) →
   ∃ e, get_food_demand_model permutation fit_linear_regression predict
          r2_score mean_absolute_error df st = (Raise e, st)) ∧
  (_satisfaction_model_cache st = None →
   (∃ c, c ∈ (satisfaction_features ++ ["Satisfaction"])%list ∧ df !! c = None) ∨
   (∀ c col, df !! c = Some col → (col_length col < 2)%nat) →
   ∃ e, get_satisfaction_model permutation fit_random_forest predict
          r2_score mean_absolute_error df st = (Raise e, st)).
Proof.
  split; intros Hempty Hbad.
  - rewrite get_food_demand_model_run, Hempty.
    destruct (train_fails permutation predict r2_score mean_absolute_error
                fit_linear_regression df "Footfall"
                ["zone_encoded"; "time_slot_encoded"] "Orders" Hbad)
      as [e He].
    unfold food_features. rewrite He. by exists e.
  - rewrite get_satisfaction_model_run, Hempty.
    destruct (train_fails permutation predict r2_score mean_absolute_error
                (fit_random_forest 150%nat 12%nat RANDOM_STATE) df
                "congestion_index"
                ["Avg_Delay_Min"; "waste_percent"; "Response_Time_hr"]
                "Satisfaction" Hbad)
      as [e He].
    unfold satisfaction_features. rewrite He. by exists e.
Qed.

(** Two rows are enough for the split: one goes to each side. *)
Lemma n_train_of_two_or_more n : (2 ≤ n)%nat → n_train_of n ≠ O.
Proof.
  intros Hn. unfold n_train_of, n_test_of.
  assert (H : (Qceiling (TEST_SIZE * Qc_of_Z (Z.of_nat n))%Qc ≤ Z.of_nat n - 1)%Z).
  { rewrite <- (Qceiling_Z (Z.of_nat n - 1)). apply Qceiling_resp_le.
    rewrite Qc_this_mult. unfold TEST_SIZE. rewrite Qc_this_Q2Qc.
    change (this (Qc_of_Z (Z.of_nat n))) with (inject_Z (Z.of_nat n)).
    rewrite inject_Z_pred.
    assert (H2 : (inject_Z 2 <= inject_Z (Z.of_nat n))%Q)
      by (apply inject_Z_le; lia).
    change (inject_Z 2) with (2 # 1)%Q in H2. lra. }
  lia.
Qed.

(** ** The simulation *)

Lemma no_reduction_factor : (1 - 0 / hundred)%Qc = 1%Qc.
Proof. by apply Qc_is_canon. Qed.

Lemma round_ndigits_0 n : round_ndigits n 0%Qc = 0%Qc.
Proof.
  unfold round_ndigits. rewrite Qcmult_0_l.
  change (round_half_even 0%Qc) with 0%Z.
  apply Qc_is_canon. rewrite Qc_this_div. unfold Qdiv.
  change (this (Qc_of_Z 0)) with 0%Q. by rewrite Qmult_0_l.
Qed.

Lemma scale_cell_1 (x : option number) : scale_cell x 1%Qc = x.
Proof. destruct x as [[|q|]|]; simpl; [done| |done..]. by rewrite Qcmult_1_r. Qed.

(** Scaling a column by 1 leaves the float array of the table as it is. *)
Lemma scale_column_1 col (X : Frame) M :
  to_matrix X = Ok M →
  ∃ X', scale_column col 1%Qc X = Ok X' ∧ to_matrix X' = Ok M.
Proof.
  unfold scale_column, to_matrix. revert M.
  induction X as [|[name c] X IH]; intros M; cbn.
  - intros [= <-]. by exists [].
  - destruct (as_float c) as [xs|] eqn:Hxs; cbn; [|done].
    destruct (mapM (λ nc : string * column, as_float nc.2) X) as [M'|] eqn:HM';
      cbn; [|done].
    intros [= <-]. destruct (IH M' eq_refl) as (X' & HX' & HM).
    rewrite HX'. cbn.
    destruct (decide (name = col)) as [->|Hne]; cbn.
    + eexists. split; [done|]. cbn. rewrite HM. cbn.
      f_equal. f_equal. rewrite <- (list_fmap_id xs) at 2.
      apply list_fmap_ext. intros _ x _. apply scale_cell_1.
    + eexists. split; [done|]. cbn. rewrite Hxs. cbn. by rewrite HM.
Qed.

Lemma improvement_same (x : Qc) : improvement (Some x) (Some x) = Some 0%Qc.
Proof.
  unfold improvement. destruct (decide (Some x = Some 0%Qc)); [done|].
  unfold fmul, fdiv, fsub.
  cbn [mbind option_bind fmap option_fmap option_map]. f_equal.
  unfold Qcminus. rewrite Qcplus_opp_r. unfold Qcdiv. rewrite !Qcmult_0_l.
  apply round_ndigits_0.
Qed.

Lemma array_mean_is_Some ys : ys ≠ [] → is_Some (array_mean ys).
Proof. destruct ys; [done|]. by eexists. Qed.

Section SimulationFacts.
Context {Model : Type}.
Context (permutation : Z → nat → list nat).
Context (fit_random_forest :
           nat → nat → Z → matrix → list (option number) → result Model).
Context (predict : Model → matrix → result (list Qc)).
Context (r2_score mean_absolute_error :
           list (option number) → list Qc → result (option Qc)).

Local Abbreviation satisfaction_model :=
  (get_satisfaction_model permutation fit_random_forest predict
     r2_score mean_absolute_error).
Local Abbreviation simulate :=
  (run_simulation permutation fit_random_forest predict
     r2_score mean_absolute_error).

(** The simulation, run on a state. *)
Lemma run_simulation_run df c d (st : caches Model) :
  simulate df c d st =
  match satisfaction_model df st with
  | (Raise e, st1) => (Raise e, st1)
  | (Ok b, st1) =>
    match
      X_full ← select df (feature_names b);
      base ← to_matrix X_full ≫= predict (model b);
      X_sim ← scale_column "congestion_index" (1 - c / hundred)%Qc X_full;
      X_sim ← scale_column "Avg_Delay_Min" (1 - d / hundred)%Qc X_sim;
      proj ← to_matrix X_sim ≫= predict (model b);
      let baseline_pred := round_ndigits 3 <$> array_mean base in
      let projected_pred := round_ndigits 3 <$> array_mean proj in
      Ok {| congestion_reduction_pct := c;
            delay_reduction_pct := d;
            baseline_satisfaction := baseline_pred;
            projected_satisfaction := projected_pred;
            improvement_pct := improvement baseline_pred projected_pred |}
    with
    | Ok r => (Ok r, st1)
    | Raise e => (Raise e, st1)
    end
  end.
Proof.
  unfold run_simulation, lift.
  unfold mbind at 1, State_bind at 1.
  destruct (satisfaction_model df st) as [[b|e] st1]; [|done].
  unfold mbind at 1, State_bind at 1.
  destruct (select df (feature_names b)) as [X|e]; [|done]. cbn [mbind result_bind].
  unfold mbind at 1, State_bind at 1.
  destruct (to_matrix X ≫= predict (model b)) as [base|e]; [|done].
  cbn [mbind result_bind].
  unfold mbind at 1, State_bind at 1.
  destruct (scale_column "congestion_index" _ X) as [X1|e]; [|done].
  cbn [mbind result_bind].
  unfold mbind at 1, State_bind at 1.
  destruct (scale_column "Avg_Delay_Min" _ X1) as [X2|e]; [|done].
  cbn [mbind result_bind].
  unfold mbind at 1, State_bind at 1.
  by destruct (to_matrix X2 ≫= predict (model b)) as [proj|e].
Qed.

(** scikit-learn's [predict] answers with one prediction per row and
    refuses a table without rows. *)
Context (predict_nonempty : ∀ m X ys, predict m X = Ok ys → ys ≠ []).

Lemma run_simulation_zero df (st st1 : caches Model) b X M ys :
  satisfaction_model df st = (Ok b, st1) →
  select df (feature_names b) = Ok X →
  to_matrix X = Ok M →
  predict (model b) M = Ok ys →
  ∃ x, simulate df 0%Qc 0%Qc st =
       (Ok {| congestion_reduction_pct := 0%Qc;
              delay_reduction_pct := 0%Qc;
              baseline_satisfaction := Some x;
              projected_satisfaction := Some x;
              improvement_pct := Some 0%Qc |}, st1).
Proof.
  intros Hb HX HM Hys. rewrite run_simulation_run, Hb, HX. cbn [mbind result_bind].
  rewrite HM. cbn [mbind result_bind]. rewrite Hys. cbn [mbind result_bind].
  rewrite no_reduction_factor.
  destruct (scale_column_1 "congestion_index" X M HM) as (X1 & -> & HM1).
  cbn [mbind result_bind].
  destruct (scale_column_1 "Avg_Delay_Min" X1 M HM1) as (X2 & -> & HM2).
  cbn [mbind result_bind]. rewrite HM2. cbn [mbind result_bind].
  rewrite Hys. cbn [mbind result_bind].
  destruct (array_mean_is_Some ys (predict_nonempty _ _ _ Hys)) as [m ->].
  cbn [fmap option_fmap option_map]. exists (round_ndigits 3 m).
  by rewrite improvement_same.
Qed.
End SimulationFacts.

(** C6. With both reductions at 0 the simulation reports the baseline
    as the projection and an improvement of 0: the scaled feature matrix is
    the baseline matrix and [predict] is a function.  The simulation returns
    whenever the baseline prediction can be made, and whenever it returns,
    it returns this. *)
Theorem simulation_without_change {Model : Type}
    permutation fit_random_forest (predict : Model → matrix → result (list Qc))
    r2_score mean_absolute_error
    (predict_nonempty : ∀ m X ys, predict m X = Ok ys → ys ≠ [])
    (df : DataFrame) (st : caches Model) :
  (∀ r st', run_simulation permutation fit_random_forest predict
              r2_score mean_absolute_error df 0%Qc 0%Qc st = (Ok r, st') →
     baseline_satisfaction r = projected_satisfaction r ∧
     is_Some (baseline_satisfaction r) ∧
     improvement_pct r = Some 0%Qc) ∧
  (∀ b st1 X M ys,
     get_satisfaction_model permutation fit_random_forest predict
       r2_score mean_absolute_error df st = (Ok b, st1) →
     select df (feature_names b) = Ok X →
     to_matrix X = Ok M →
     predict (model b) M = Ok ys →
     ∃ r, run_simulation permutation fit_random_forest predict
            r2_score mean_absolute_error df 0%Qc 0%Qc st = (Ok r, st1)).
Proof.
  split.
  - intros r st' Hrun.
    pose proof Hrun as Hrun'. rewrite run_simulation_run in Hrun'.
    destruct (get_satisfaction_model _ _ _ _ _ df st) as [[b|e] st1] eqn:Hb;
      [|done].
    destruct (select df (feature_names b)) as [X|e] eqn:HX; [|done].
    cbn [mbind result_bind] in Hrun'.
    destruct (to_matrix X) as [M|e] eqn:HM; [|done].
    cbn [mbind result_bind] in Hrun'.
    destruct (predict (model b) M) as [ys|e] eqn:Hys; [|done].
    destruct (run_simulation_zero permutation fit_random_forest predict
                r2_score mean_absolute_error predict_nonempty
                df st st1 b X M ys Hb HX HM Hys) as [x Hx].
    rewrite Hx in Hrun. injection Hrun as <- <-. simpl.
    split_and!; [done|by eexists|done].
  - intros b st1 X M ys Hb HX HM Hys.
    destruct (run_simulation_zero permutation fit_random_forest predict
                r2_score mean_absolute_error predict_nonempty
                df st st1 b X M ys Hb HX HM Hys) as [x Hx].
    by eexists.
Qed.

(** ** The ranking of the recommendations *)

Lemma sort_key_ltb_true a b :
  sort_key_ltb a b = true ↔
  (a.1 < b.1)%nat ∨ (a.1 = b.1 ∧ (a.2 < b.2)%Qc).
Proof.
  unfold sort_key_ltb.
  rewrite orb_true_iff, andb_true_iff, Nat.ltb_lt, Nat.eqb_eq, Qc_ltb_lt. done.
Qed.

Lemma sort_key_ltb_false a b :
  sort_key_ltb a b = false ↔
  (b.1 < a.1)%nat ∨ (a.1 = b.1 ∧ (b.2 ≤ a.2)%Qc).
Proof.
  rewrite <- not_true_iff_false, sort_key_ltb_true. split.
  - intros H. destruct (lt_eq_lt_dec a.1 b.1) as [[Hlt|Heq]|Hgt].
    + destruct H. by left.
    + right. split; [done|]. apply Qcnot_lt_le. intros Hlt. destruct H. by right.
    + by left.
  - intros [Hgt|[Heq Hle]] [Hlt|[Heq' Hlt]]; try lia.
    by apply Qcle_not_lt in Hle.
Qed.

Lemma intervention_ltb_asym x y :
  intervention_ltb x y = true → intervention_ltb y x = false.
Proof.
  unfold intervention_ltb. rewrite sort_key_ltb_true, sort_key_ltb_false.
  intros [Hlt|[Heq Hlt]]; [by left|]. right. split; [done|].
  by apply Qclt_le_weak.
Qed.

Lemma intervention_geb_trans x y z :
  intervention_ltb y x = false → intervention_ltb z y = false →
  intervention_ltb z x = false.
Proof.
  unfold intervention_ltb. rewrite !sort_key_ltb_false.
  intros [H1|[E1 L1]] [H2|[E2 L2]].
  - left. lia.
  - left. lia.
  - left. lia.
  - right. split; [congruence|]. by eapply Qcle_trans.
Qed.

Lemma intervention_ltb_same_key x y :
  sort_key x = sort_key y → intervention_ltb x y = false.
Proof.
  unfold intervention_ltb. intros ->. apply sort_key_ltb_false.
  right. split; [done|]. apply Qcle_refl.
Qed.

(** What it means for [x] to stand before [y] in the ranking. *)
Lemma ranked_before x y :
  intervention_ltb y x = false ↔
  (priority_order (priority x) < priority_order (priority y))%nat ∨
  (priority_order (priority x) = priority_order (priority y) ∧
   (projected_impact y ≤ projected_impact x)%Qc).
Proof.
  unfold intervention_ltb. rewrite sort_key_ltb_false. simpl.
  split; (intros [H|[Heq Hle]]; [by left|right; split; [done|]]).
  - apply Qcopp_le_compat in Hle. by rewrite !Qcopp_involutive in Hle.
  - by apply Qcopp_le_compat.
Qed.

Section InterventionFacts.
Context {Model : Type}.
Context (_congestion_interventions _food_interventions
         _transport_interventions : DataFrame → result (list intervention)).
Context (_satisfaction_interventions :
           DataFrame → State (caches Model) (list intervention)).

Local Abbreviation pooled :=
  (pooled_interventions _congestion_interventions _food_interventions
     _transport_interventions _satisfaction_interventions).
Local Abbreviation strategic :=
  (get_strategic_interventions _congestion_interventions _food_interventions
     _transport_interventions _satisfaction_interventions).

Lemma pooled_interventions_Ok df (st st' : caches Model) items :
  pooled df st = (Ok items, st') ↔
  ∃ a b c d,
    _congestion_interventions df = Ok a ∧
    _food_interventions df = Ok b ∧
    _transport_interventions df = Ok c ∧
    _satisfaction_interventions df st = (Ok d, st') ∧
    items = (a ++ b ++ c ++ d)%list.
Proof.
  unfold pooled_interventions, lift.
  unfold mbind, State_bind, mret, State_ret.
  destruct (_congestion_interventions df) as [a|];
    [|split; [done|by intros (?&?&?&?&?&_)]].
  destruct (_food_interventions df) as [b|];
    [|split; [done|by intros (?&?&?&?&_&?&_)]].
  destruct (_transport_interventions df) as [c|];
    [|split; [done|by intros (?&?&?&?&_&_&?&_)]].
  destruct (_satisfaction_interventions df st) as [[d|e] st1].
  - split.
    + intros [= <- <-]. by exists a, b, c, d.
    + intros (a' & b' & c' & d' & [= <-] & [= <-] & [= <-] & [= <- <-] & ->).
      done.
  - split; [done|]. by intros (?&?&?&?&_&_&_&?&_).
Qed.

(** The service returns exactly when the four generators do, and then
    returns their pooled records, sorted. *)
Lemma get_strategic_interventions_run df (st : caches Model) :
  strategic df st =
  match pooled df st with
  | (Ok items, st') =>
      (Ok {| summary := _compute_summary (stable_sort intervention_ltb items);
             interventions := stable_sort intervention_ltb items |}, st')
  | (Raise e, st') => (Raise e, st')
  end.
Proof.
  unfold get_strategic_interventions. unfold mbind at 1, State_bind at 1.
  by destruct (pooled df st) as [[items|e] st'].
Qed.
End InterventionFacts.


(* ================================================================== *)
(** * Exact arithmetic satisfies the IEEE laws *)

Lemma Qcdiv_nonneg x y : (0 ≤ x)%Qc → (0 < y)%Qc → (0 ≤ x / y)%Qc.
Proof.
  intros Hx Hy. unfold Qcdiv.
  assert (Hinv : (0 ≤ / y)%Qc).
  { unfold Qcle, Qclt in *.
    change (0 <= Qred (/ y))%Q. rewrite Qred_correct.
    apply Qinv_le_0_compat, Qlt_le_weak. exact Hy. }
  rewrite <- (Qcmult_0_l (/ y)). by apply Qcmult_le_compat_r.
Qed.

Lemma Qc_pos_nonzero q : Qc_ltb 0%Qc q = true → q ≠ 0%Qc.
Proof. intros H ->. by rewrite Qc_ltb_irrefl in H. Qed.

Lemma ideal_divide_number a b :
  num_ltb zero b = true → ¬ (infinite a ∧ infinite b) →
  is_Some (ideal_divide (Some a) (Some b)).
Proof.
  intros Hb Hinf. destruct b as [|q|]; [done|..].
  - apply Qc_pos_nonzero in Hb. destruct a as [|p|]; simpl.
    + destruct (Qc_ltb q 0%Qc); by eexists.
    + destruct (decide (q = 0%Qc)); [done|]. by eexists.
    + destruct (Qc_ltb q 0%Qc); by eexists.
  - destruct a as [|p|]; simpl; [|by eexists|].
    + destruct Hinf. split; [by right|by left].
    + destruct Hinf. split; by left.
Qed.

Lemma ideal_divide_nonneg a b x :
  ideal_divide (Some a) (Some b) = Some x →
  num_leb zero a = true → num_ltb zero b = true → num_leb zero x = true.
Proof.
  intros Hx Ha Hb. destruct b as [|q|]; [done|..].
  - destruct a as [|p|]; [done|..]; simpl in Hx.
    + destruct (decide (q = 0%Qc)) as [->|_];
        [change (num_ltb zero zero = true) in Hb; by rewrite num_ltb_irrefl in Hb|].
      injection Hx as <-. unfold num_leb in *. simpl in *.
      apply negb_true_iff, Qc_ltb_ge in Ha. apply Qc_ltb_lt in Hb.
      apply negb_true_iff, Qc_ltb_ge. by apply Qcdiv_nonneg.
    + assert (Hq : Qc_ltb q 0%Qc = false).
      { apply Qc_ltb_ge, Qclt_le_weak. by apply Qc_ltb_lt. }
      rewrite Hq in Hx. by injection Hx as <-.
  - destruct a as [|p|]; [done| |done]. simpl in Hx. injection Hx as <-.
    unfold num_leb. by rewrite num_ltb_irrefl.
Qed.

Lemma ideal_subtract_number a b :
  ¬ (infinite a ∧ infinite b) → is_Some (ideal_subtract (Some a) (Some b)).
Proof.
  intros Hinf. destruct a, b; simpl; try (by eexists);
    destruct Hinf; split; first [by left|by right].
Qed.

Lemma ideal_median_missing xs :
  (∀ o, o ∈ xs → o = None) → ideal_median xs = None.
Proof.
  intros H. unfold ideal_median. by rewrite (proj2 (omap_id_nil xs) H).
Qed.

Lemma ideal_median_number xs :
  (∀ x, Some x ∈ xs → finite x) → (∃ x, Some x ∈ xs) →
  is_Some (ideal_median xs).
Proof.
  intros Hfin [x Hx]. unfold ideal_median.
  set (s := stable_sort num_ltb (omap id xs)).
  assert (Hs : ∀ i y, s !! i = Some y → finite y).
  { intros i y Hy. apply Hfin. apply list_elem_of_lookup_2 in Hy.
    unfold s in Hy. rewrite stable_sort_elem_of, list_elem_of_omap in Hy.
    by destruct Hy as ([y'|] & Hy' & [= <-]). }
  assert (Hlen : length s ≠ O).
  { unfold s. rewrite stable_sort_length. intros Hnil%nil_length_inv.
    by specialize (proj1 (omap_id_nil xs) Hnil (Some x) Hx). }
  destruct (length s) as [|n] eqn:Hn; [done|].
  assert (Hhi : (S n / 2 < S n)%nat) by (apply Nat.div_lt; lia).
  destruct (lookup_lt_is_Some_2 s (S n / 2)) as [b Hb]; [lia|].
  destruct (lookup_lt_is_Some_2 s (S n / 2 - 1)) as [a Ha]; [lia|].
  destruct (Nat.odd (S n)); [by eexists|].
  rewrite Ha, Hb. destruct (Hs _ _ Ha) as [p ->], (Hs _ _ Hb) as [q ->].
  simpl. destruct (decide (Qc_of_Z 2 = 0%Qc)) as [H|_]; [done|]. by eexists.
Qed.

Lemma ideal_laws : NumpyLaws ideal.
Proof.
  split.
  - apply ideal_divide_number.
  - apply ideal_divide_nonneg.
  - apply ideal_subtract_number.
  - apply ideal_median_missing.
  - apply ideal_median_number.
Qed.

(* ================================================================== *)
(** * The theorems at work on the small campus *)

(** C1: of the five groups, two are counted. *)
Lemma bottleneck_count_rounded_five_groups :
  groups_rounded_at_or_above (np := ideal) BOTTLENECK_THRESHOLD five_groups
  = Ok (bottleneck_count five_groups_summary) ∧
  bottleneck_count five_groups_summary = 2%nat ∧
  length (heatmap five_groups_summary) = 5%nat.
Proof.
  split; [|split; vm_compute; reflexivity].
  apply (proj1 (bottleneck_count_rounded (np := ideal) five_groups
                  five_groups_summary eq_refl)).
Defined.

(** C2: the campus delays are finite, and cleaning the cleaned campus
    returns it. *)
Lemma clean_dataframe_idempotent_campus :
  clean_dataframe (np := ideal) no_number campus_cleaned = Ok campus_cleaned.
Proof.
  destruct (clean_dataframe_idempotent_unless_refilled (np := ideal) no_number
              campus_raw campus_cleaned) as (out2 & Hout2 & _ & Hfin).
  - reflexivity.
  - rewrite <- (Hfin ideal_laws) at 2; [exact Hout2|].
    intros xs x Hxs Hx. vm_compute in Hxs. injection Hxs as <-.
    apply elem_of_cons in Hx as [[= ->]|Hx]; [eexists; reflexivity|].
    apply elem_of_cons in Hx as [Hx|Hx]; [discriminate Hx|].
    apply elem_of_cons in Hx as [[= ->]|Hx]; [eexists; reflexivity|].
    destruct (proj1 (elem_of_nil _) Hx).
Defined.

(** C3: after the first calls on the campus table, a call on an empty
    table, with estimators that always fail, returns the same bundles. *)
Lemma model_cache_hit_campus :
  (get_food_demand_model toy_permutation (λ _ _, Raise ValueError)
     (λ _ _, Raise ValueError) toy_score toy_score ∅ food_first_call.2
   = (Ok (value_of no_bundle food_first_call.1), food_first_call.2)) ∧
  (get_satisfaction_model toy_permutation (λ _ _ _ _ _, Raise ValueError)
     (λ _ _, Raise ValueError) toy_score toy_score ∅ satisfaction_first_call.2
   = (Ok (value_of no_bundle satisfaction_first_call.1),
      satisfaction_first_call.2)).
Proof.
  split.
  - refine (proj1 (proj1 (model_cache_hit toy_permutation toy_fit toy_forest
              toy_predict toy_score toy_score campus_processed empty_caches
              food_first_call.2 (value_of no_bundle food_first_call.1)) _
            toy_permutation (λ _ _, Raise ValueError)
            (λ _ _ _ _ _, Raise ValueError) (λ _ _, Raise ValueError)
            toy_score toy_score ∅ ∅)).
    vm_compute. reflexivity.
  - refine (proj1 (proj2 (model_cache_hit toy_permutation toy_fit toy_forest
              toy_predict toy_score toy_score campus_processed empty_caches
              satisfaction_first_call.2
              (value_of no_bundle satisfaction_first_call.1)) _
            toy_permutation (λ _ _, Raise ValueError)
            (λ _ _ _ _ _, Raise ValueError) (λ _ _, Raise ValueError)
            toy_score toy_score ∅ ∅)).
    vm_compute. reflexivity.
Defined.



Lemma toy_predict_nonempty m X ys : toy_predict m X = Ok ys → ys ≠ [].
Proof.
  unfold toy_predict. destruct X as [|[|x col] X]; [done..|].
  by intros [= <-].
Qed.

(** C6: the simulation on the campus table with nothing reduced. *)
Lemma simulation_without_change_campus :
  baseline_satisfaction (value_of no_simulation simulation_run.1)
  = projected_satisfaction (value_of no_simulation simulation_run.1) ∧
  is_Some (baseline_satisfaction (value_of no_simulation simulation_run.1)) ∧
  improvement_pct (value_of no_simulation simulation_run.1) = Some 0%Qc.
Proof.
  apply (proj1 (simulation_without_change toy_permutation toy_forest
                  toy_predict toy_score toy_score toy_predict_nonempty
                  campus_processed empty_caches)
               (value_of no_simulation simulation_run.1) simulation_run.2).
  vm_compute. reflexivity.
Defined.

(** C7: an empty table has none of the columns; a table of one row
    cannot be split. *)
Lemma training_errors_propagate_campus :
  (∃ e, get_food_demand_model toy_permutation toy_fit toy_predict toy_score
          toy_score ∅ empty_caches = (Raise e, empty_caches)) ∧
  (∃ e, get_satisfaction_model toy_permutation toy_forest toy_predict toy_score
          toy_score one_row empty_caches = (Raise e, empty_caches)).
Proof.
  split.
  - apply (proj1 (training_errors_propagate toy_permutation toy_fit toy_forest
                    toy_predict toy_score toy_score ∅ empty_caches)).
    + reflexivity.
    + left. exists "Footfall". split; [left|reflexivity].
  - apply (proj2 (training_errors_propagate toy_permutation toy_fit toy_forest
                    toy_predict toy_score toy_score one_row empty_caches)).
    + reflexivity.
    + right. intros c col Hc. unfold one_row in Hc.
      rewrite lookup_fmap in Hc.
      destruct (campus_processed !! c) as [col0|]; [|done].
      injection Hc as <-. destruct col0 as [zs|xs|vs]; simpl.
      * destruct (zs !! 0%nat); simpl; lia.
      * destruct (xs !! 0%nat); simpl; lia.
      * destruct (vs !! 0%nat); simpl; lia.
Defined.

(** C8: the campus delays -4, blank and 1.5 come out as 0, 0 and 1.5. *)
Lemma clean_dataframe_delay_nonneg_campus :
  Forall nonneg_cell
    (cells (value_of (IntCol []) (getitem campus_cleaned "Avg_Delay_Min"))).
Proof.
  refine (proj1 (proj2 (clean_dataframe_delay_nonneg (np := ideal) no_number
                   campus_raw campus_cleaned
                   (value_of (IntCol []) (getitem campus_cleaned "Avg_Delay_Min"))
                   _ _))
            (FloatCol [real (-4); None; real (3 # 2)]) _ _).
  - reflexivity.
  - vm_compute. reflexivity.
  - vm_compute. reflexivity.
  - right. eexists. vm_compute. reflexivity.
Defined.

(** C9: Library and Sports are ranked 0 and 1 and the blank zone gets
    -1; Evening and Morning are ranked 0 and 1 and the blank slot -1. *)
Lemma label_encoding_campus :
  campus_processed !! "zone_encoded" = Some (IntCol [0; 1; -1]) ∧
  campus_processed !! "time_slot_encoded" = Some (IntCol [1; -1; 0]) ∧
  encodes [VStr "Library"; VStr "Sports"; VNaN] [0; 1; -1] ∧
  encodes [VStr "Morning"; VNaN; VStr "Evening"] [1; -1; 0].
Proof.
  destruct (label_encoding (np := ideal) campus_cleaned campus_processed)
    as (zone & slot & Hzl & Htl & Hzone & Hslot & Hzenc & Htenc).
  - reflexivity.
  - vm_compute in Hzl. injection Hzl as <-.
    vm_compute in Htl. injection Htl as <-.
    split_and!; [exact Hzone|exact Hslot|exact Hzenc|exact Htenc].
Defined.
